(** * A shallow embedding of the todo application's core

    Sources embedded here:
    - [src/types/todo.ts] (unnamed part_006): the data model;
    - [src/context/TodoReducer.ts]: [todoReducer] and [initialState];
    - [src/components/TodoList/TodoList.tsx] (unnamed part_002): the
      [filteredAndSortedTodos] memo of [TodoList];
    - [src/context/TodoContext.tsx] (unnamed part_008): [TodoProvider];
    - [src/components/TodoForm/TodoForm.tsx] (unnamed part_003): the
      editing effect, [resetForm] and [handleSubmit];
    - [src/components/CategoryManager/CategoryManager.tsx] (unnamed
      part_001): [handleSubmit] and [handleDelete];
    - [src/components/TodoFilter/TodoFilter.tsx]: the change handlers
      and [clearFilters];
    - [src/utils/localStorage.ts], which is not in the tree (only its
      test is), modelled from the spec.

    Text is Rocq's [string] (ASCII); [undefined] for an optional field is
    [None]; a JS [number] that may be [NaN] is [option Z]. *)

From Stdlib Require Import List Bool Ascii String ZArith Lia.
From Stdlib Require Import Permutation Sorted Setoid.
Import ListNotations.

Open Scope string_scope.

(* ------------------------------------------------------------------ *)
(** ** Data model ([types/todo.ts]) *)

Module Priority.
Inductive t := low | medium | high.
Definition eqb (a b : t) : bool :=
  match a, b with
  | low, low | medium, medium | high, high => true
  | _, _ => false
  end.
End Priority.

Module SortBy.
Inductive t := dueDate | priority | createdAt.
End SortBy.

Module Todo.
Record t := mk {
  id : string;
  title : string;
  description : option string;
  completed : bool;
  priority : Priority.t;
  dueDate : option string;
  category : option string;
  tags : list string;
  createdAt : string;
  updatedAt : string
}.
End Todo.

Module Category.
Record t := mk { id : string; name : string; color : string }.
End Category.

Module TodoFilter.
Record t := mk {
  searchText : string;
  category : option string;
  priority : option Priority.t;
  showCompleted : bool;
  sortBy : SortBy.t
}.
End TodoFilter.

Module TodoState.
Record t := mk {
  todos : list Todo.t;
  categories : list Category.t;
  filter : TodoFilter.t
}.
End TodoState.

(** [Partial<Todo>]: a field is absent ([None]) or present.  An optional
    field of [Todo] may be present with the value [undefined], hence
    [option (option _)] there: the spread [{...todo, ...updates}] copies
    a present [undefined] too (the form relies on it to clear a field). *)
Module TodoPatch.
Record t := mk {
  id : option string;
  title : option string;
  description : option (option string);
  completed : option bool;
  priority : option Priority.t;
  dueDate : option (option string);
  category : option (option string);
  tags : option (list string);
  createdAt : option string;
  updatedAt : option string
}.
Definition empty : t :=
  mk None None None None None None None None None None.
End TodoPatch.

(** [Partial<TodoFilter>]. *)
Module FilterPatch.
Record t := mk {
  searchText : option string;
  category : option (option string);
  priority : option (option Priority.t);
  showCompleted : option bool;
  sortBy : option SortBy.t
}.
End FilterPatch.

(** A present field of the right operand of a spread wins. *)
Definition override {A} (o : option A) (d : A) : A :=
  match o with Some v => v | None => d end.

(** [{ ...todo, ...updates }] *)
Definition spreadTodo (t : Todo.t) (u : TodoPatch.t) : Todo.t :=
  {| Todo.id := override (TodoPatch.id u) (Todo.id t);
     Todo.title := override (TodoPatch.title u) (Todo.title t);
     Todo.description := override (TodoPatch.description u) (Todo.description t);
     Todo.completed := override (TodoPatch.completed u) (Todo.completed t);
     Todo.priority := override (TodoPatch.priority u) (Todo.priority t);
     Todo.dueDate := override (TodoPatch.dueDate u) (Todo.dueDate t);
     Todo.category := override (TodoPatch.category u) (Todo.category t);
     Todo.tags := override (TodoPatch.tags u) (Todo.tags t);
     Todo.createdAt := override (TodoPatch.createdAt u) (Todo.createdAt t);
     Todo.updatedAt := override (TodoPatch.updatedAt u) (Todo.updatedAt t) |}.

(** [{ ...t, updatedAt: now }] *)
Definition withUpdatedAt (t : Todo.t) (now : string) : Todo.t :=
  {| Todo.id := Todo.id t; Todo.title := Todo.title t;
     Todo.description := Todo.description t; Todo.completed := Todo.completed t;
     Todo.priority := Todo.priority t; Todo.dueDate := Todo.dueDate t;
     Todo.category := Todo.category t; Todo.tags := Todo.tags t;
     Todo.createdAt := Todo.createdAt t; Todo.updatedAt := now |}.

(** [{ ...t, completed: !t.completed, updatedAt: now }] *)
Definition toggled (t : Todo.t) (now : string) : Todo.t :=
  {| Todo.id := Todo.id t; Todo.title := Todo.title t;
     Todo.description := Todo.description t; Todo.completed := negb (Todo.completed t);
     Todo.priority := Todo.priority t; Todo.dueDate := Todo.dueDate t;
     Todo.category := Todo.category t; Todo.tags := Todo.tags t;
     Todo.createdAt := Todo.createdAt t; Todo.updatedAt := now |}.

(** [{ ...state.filter, ...action.payload }] *)
Definition spreadFilter (f : TodoFilter.t) (u : FilterPatch.t) : TodoFilter.t :=
  {| TodoFilter.searchText := override (FilterPatch.searchText u) (TodoFilter.searchText f);
     TodoFilter.category := override (FilterPatch.category u) (TodoFilter.category f);
     TodoFilter.priority := override (FilterPatch.priority u) (TodoFilter.priority f);
     TodoFilter.showCompleted := override (FilterPatch.showCompleted u) (TodoFilter.showCompleted f);
     TodoFilter.sortBy := override (FilterPatch.sortBy u) (TodoFilter.sortBy f) |}.

(* ------------------------------------------------------------------ *)
(** ** The reducer ([context/TodoReducer.ts]) *)

Inductive TodoAction :=
| ADD_TODO (payload : Todo.t)
| UPDATE_TODO (id : string) (updates : TodoPatch.t)
| DELETE_TODO (payload : string)
| TOGGLE_TODO (payload : string)
| ADD_CATEGORY (payload : Category.t)
| DELETE_CATEGORY (payload : string)
| SET_FILTER (payload : FilterPatch.t)
| LOAD_STATE (payload : TodoState.t).

(** The ambient clock: the [k]-th evaluation of
    [new Date().toISOString()] during one call of the reducer returns
    [clock k].  The reducer evaluates it once per matched todo, inside
    the [map] callback. *)
Definition Clock := nat -> string.

(** [state.todos.map(todo => hit(todo) ? f(todo, new Date()...) : todo)],
    with [k] the number of clock reads made so far. *)
Fixpoint mapStamped (clock : Clock) (k : nat) (hit : Todo.t -> bool)
  (f : Todo.t -> string -> Todo.t) (l : list Todo.t) : list Todo.t :=
  match l with
  | [] => []
  | todo :: l' =>
      if hit todo then f todo (clock k) :: mapStamped clock (S k) hit f l'
      else todo :: mapStamped clock k hit f l'
  end.

Definition todoReducer (clock : Clock) (state : TodoState.t) (action : TodoAction)
  : TodoState.t :=
  match action with
  | ADD_TODO t =>
      TodoState.mk (TodoState.todos state ++ [t])
        (TodoState.categories state) (TodoState.filter state)
  | UPDATE_TODO id updates =>
      let updatedTodos :=
        mapStamped clock 0 (fun todo => String.eqb (Todo.id todo) id)
          (fun todo now => withUpdatedAt (spreadTodo todo updates) now)
          (TodoState.todos state) in
      TodoState.mk updatedTodos (TodoState.categories state) (TodoState.filter state)
  | DELETE_TODO id =>
      TodoState.mk
        (filter (fun todo => negb (String.eqb (Todo.id todo) id)) (TodoState.todos state))
        (TodoState.categories state) (TodoState.filter state)
  | TOGGLE_TODO id =>
      let toggledTodos :=
        mapStamped clock 0 (fun todo => String.eqb (Todo.id todo) id)
          toggled (TodoState.todos state) in
      TodoState.mk toggledTodos (TodoState.categories state) (TodoState.filter state)
  | ADD_CATEGORY c =>
      TodoState.mk (TodoState.todos state) (TodoState.categories state ++ [c])
        (TodoState.filter state)
  | DELETE_CATEGORY id =>
      TodoState.mk (TodoState.todos state)
        (filter (fun cat => negb (String.eqb (Category.id cat) id))
           (TodoState.categories state))
        (TodoState.filter state)
  | SET_FILTER f =>
      TodoState.mk (TodoState.todos state) (TodoState.categories state)
        (spreadFilter (TodoState.filter state) f)
  | LOAD_STATE s => s
  end.

Definition initialState : TodoState.t :=
  TodoState.mk [] []
    (TodoFilter.mk "" None None true SortBy.createdAt).

(* ------------------------------------------------------------------ *)
(** ** The derived view ([TodoList.tsx], [filteredAndSortedTodos]) *)

(** [String.prototype.toLowerCase] on ASCII text. *)
Definition lowerAscii (c : ascii) : ascii :=
  let n := nat_of_ascii c in
  if (65 <=? n)%nat && (n <=? 90)%nat then ascii_of_nat (n + 32) else c.

Definition toLowerCase (s : string) : string :=
  string_of_list_ascii (map lowerAscii (list_ascii_of_string s)).

Fixpoint isPrefix (p s : list ascii) : bool :=
  match p, s with
  | [], _ => true
  | a :: p', b :: s' => Ascii.eqb a b && isPrefix p' s'
  | _ :: _, [] => false
  end.

Fixpoint includesL (s p : list ascii) : bool :=
  isPrefix p s || match s with [] => false | _ :: s' => includesL s' p end.

(** [s.includes(p)] *)
Definition includes (s p : string) : bool :=
  includesL (list_ascii_of_string s) (list_ascii_of_string p).

(** JS truthiness of a [string] and of a [string | undefined]. *)
Definition truthy (s : string) : bool :=
  match s with EmptyString => false | String _ _ => true end.

Definition truthyOpt (o : option string) : bool :=
  match o with Some s => truthy s | None => false end.

(** [todo.title.toLowerCase().includes(searchLower) ||
     todo.description?.toLowerCase().includes(searchLower)] *)
Definition matchesSearch (searchLower : string) (todo : Todo.t) : bool :=
  includes (toLowerCase (Todo.title todo)) searchLower
  || match Todo.description todo with
     | Some d => includes (toLowerCase d) searchLower
     | None => false
     end.

Definition optStringEqb (a b : option string) : bool :=
  match a, b with
  | Some x, Some y => String.eqb x y
  | None, None => true
  | _, _ => false
  end.

(** The four [if (...) filtered = filtered.filter(...)] steps. *)
Definition applyFilters (f : TodoFilter.t) (todos : list Todo.t) : list Todo.t :=
  let filtered := todos in
  let filtered :=
    if truthy (TodoFilter.searchText f)
    then filter (matchesSearch (toLowerCase (TodoFilter.searchText f))) filtered
    else filtered in
  let filtered :=
    if truthyOpt (TodoFilter.category f)
    then filter (fun todo => optStringEqb (Todo.category todo) (TodoFilter.category f))
           filtered
    else filtered in
  let filtered :=
    match TodoFilter.priority f with
    | Some p => filter (fun todo => Priority.eqb (Todo.priority todo) p) filtered
    | None => filtered
    end in
  if negb (TodoFilter.showCompleted f)
  then filter (fun todo => negb (Todo.completed todo)) filtered
  else filtered.

(** [priorityOrder] *)
Definition priorityOrder (p : Priority.t) : Z :=
  match p with Priority.high => 0 | Priority.medium => 1 | Priority.low => 2 end%Z.

(** [x - y] on numbers that may be [NaN] ([None]). *)
Definition subNum (x y : option Z) : option Z :=
  match x, y with Some a, Some b => Some (a - b)%Z | _, _ => None end.

Section DerivedView.

(** [new Date(s).getTime()]: milliseconds, or [NaN] ([None]) for a
    string that does not parse as a date. *)
Variable getTime : string -> option Z.

Definition dueDateText (todo : Todo.t) : string :=
  match Todo.dueDate todo with Some s => s | None => EmptyString end.

(** The comparator passed to [sort]; its result is a JS number. *)
Definition compareTodos (sortBy : SortBy.t) (a b : Todo.t) : option Z :=
  if negb (Bool.eqb (Todo.completed a) (Todo.completed b))
  then Some (if Todo.completed a then 1 else -1)%Z
  else
    match sortBy with
    | SortBy.dueDate =>
        if negb (truthyOpt (Todo.dueDate a)) && negb (truthyOpt (Todo.dueDate b))
        then Some 0%Z
        else if negb (truthyOpt (Todo.dueDate a)) then Some 1%Z
        else if negb (truthyOpt (Todo.dueDate b)) then Some (-1)%Z
        else subNum (getTime (dueDateText a)) (getTime (dueDateText b))
    | SortBy.priority =>
        Some (priorityOrder (Todo.priority a) - priorityOrder (Todo.priority b))%Z
    | SortBy.createdAt =>
        subNum (getTime (Todo.createdAt b)) (getTime (Todo.createdAt a))
    end.

(** ECMAScript SortCompare: a [NaN] result counts as [+0]. *)
Definition sortCompare (cmp : Todo.t -> Todo.t -> option Z) (a b : Todo.t) : Z :=
  match cmp a b with Some v => v | None => 0%Z end.

(** [Array.prototype.sort] with a comparator, modelled as a stable
    insertion sort: each element is placed after every earlier element
    that does not compare greater than it (ECMAScript requires a stable
    sort; for a consistent comparator every stable sort agrees). *)
Fixpoint insertBy (cmp : Todo.t -> Todo.t -> option Z) (x : Todo.t) (l : list Todo.t)
  : list Todo.t :=
  match l with
  | [] => [x]
  | y :: l' =>
      if (0 <? sortCompare cmp y x)%Z then x :: y :: l'
      else y :: insertBy cmp x l'
  end.

Definition sortBy (cmp : Todo.t -> Todo.t -> option Z) (l : list Todo.t) : list Todo.t :=
  fold_left (fun acc x => insertBy cmp x acc) l [].

Definition filteredAndSortedTodos (state : TodoState.t) : list Todo.t :=
  let f := TodoState.filter state in
  sortBy (compareTodos (TodoFilter.sortBy f)) (applyFilters f (TodoState.todos state)).

End DerivedView.

(** A date reader for concrete runs: the decimal digits of an ISO 8601
    text, read as one number (monotone in the date for texts of one
    shape); [NaN] when there is no digit. *)
Fixpoint digitsAcc (l : list ascii) (acc : option Z) : option Z :=
  match l with
  | [] => acc
  | c :: l' =>
      let n := nat_of_ascii c in
      if (48 <=? n)%nat && (n <=? 57)%nat
      then digitsAcc l' (Some (10 * override acc 0 + Z.of_nat (n - 48)))%Z
      else digitsAcc l' acc
  end.

Definition isoKey (s : string) : option Z := digitsAcc (list_ascii_of_string s) None.

(* ------------------------------------------------------------------ *)
(** ** Persistence ([utils/localStorage.ts]) *)

(** A computation that returns a value or raises an error. *)
Inductive Exc (A : Type) := Ok (a : A) | Throw (e : string).
Arguments Ok {A} a.
Arguments Throw {A} e.

(** The single storage slot ["todo-app-state"] of [window.localStorage],
    with the two ways the host storage can fail. *)
Record Storage := mkStorage {
  slot : option string;
  getItemThrows : bool;
  setItemThrows : bool
}.

(** [JSON.stringify] and [JSON.parse] at type [TodoState]. *)
Record Json := mkJson {
  stringify : TodoState.t -> string;
  parse : string -> Exc TodoState.t
}.

Definition getItem (st : Storage) : Exc (option string) :=
  if getItemThrows st then Throw "Storage error" else Ok (slot st).

Definition setItem (st : Storage) (v : string) : Exc Storage :=
  if setItemThrows st then Throw "Storage full"
  else Ok (mkStorage (Some v) (getItemThrows st) (setItemThrows st)).

Section Persistence.
Variable json : Json.

(** Modelled from the spec: [loadFromLocalStorage] of
    [utils/localStorage.ts] (not in the tree).  Read the slot; absent
    gives no value; otherwise parse it.  Any error raised by the read or
    by the parse is caught (and logged) and gives no value. *)
Definition loadFromLocalStorage (st : Storage) : Exc (option TodoState.t) :=
  let attempt :=
    match getItem st with
    | Throw e => Throw e
    | Ok None => Ok None
    | Ok (Some txt) =>
        match parse json txt with
        | Ok s => Ok (Some s)
        | Throw e => Throw e
        end
    end in
  match attempt with
  | Ok r => Ok r
  | Throw _ => Ok None
  end.

(** Modelled from the spec: [saveToLocalStorage] of
    [utils/localStorage.ts] (not in the tree).  Serialize the state and
    write the slot; an error raised by the write is caught (and logged)
    and leaves the storage as it was. *)
Definition saveToLocalStorage (state : TodoState.t) (st : Storage) : Storage :=
  match setItem st (stringify json state) with
  | Ok st' => st'
  | Throw _ => st
  end.

(* ------------------------------------------------------------------ *)
(** ** The façade ([context/TodoContext.tsx], [TodoProvider]) *)

(** The values a render of [TodoProvider] sees:
    [const [state, dispatch] = useReducer(todoReducer, initialState)] and
    [const [isInitialized, setIsInitialized] = useState(false)]. *)
Record Render := mkRender {
  rState : TodoState.t;
  rIsInitialized : bool
}.

(** A state update queued during a commit's effects.  A dispatch carries
    the clock the reducer reads when React runs it. *)
Inductive Queued :=
| QDispatch (clock : Clock) (a : TodoAction)
| QSetIsInitialized (b : bool).

Definition applyQueued (r : Render) (q : Queued) : Render :=
  match q with
  | QDispatch clock a => mkRender (todoReducer clock (rState r) a) (rIsInitialized r)
  | QSetIsInitialized b => mkRender (rState r) b
  end.

Definition isDispatch (q : Queued) : bool :=
  match q with QDispatch _ _ => true | QSetIsInitialized _ => false end.

(** First effect, deps [[]]: runs once, after the first commit.
    [const savedState = loadFromLocalStorage();
     if (savedState) dispatch({type: 'LOAD_STATE', payload: savedState});
     setIsInitialized(true);] *)
Definition loadEffect (clock : Clock) (st : Storage) : list Queued :=
  match loadFromLocalStorage st with
  | Ok (Some savedState) =>
      [QDispatch clock (LOAD_STATE savedState); QSetIsInitialized true]
  | _ => [QSetIsInitialized true]
  end.

(** Second effect, deps [[state, isInitialized]]:
    [if (isInitialized) saveToLocalStorage(state);]
    It also returns the list of states handed to [saveToLocalStorage]. *)
Definition saveEffect (r : Render) (st : Storage) : Storage * list TodoState.t :=
  if rIsInitialized r then (saveToLocalStorage (rState r) st, [rState r])
  else (st, []).

(** Did the deps [[state, isInitialized]] change between two renders?
    Every case of [todoReducer] reached by a dispatch returns a fresh
    object ([LOAD_STATE] returns the freshly parsed payload), so a
    dispatch always changes the identity of [state]. *)
Definition depsChanged (qs : list Queued) (old new : Render) : bool :=
  existsb isDispatch qs
  || negb (Bool.eqb (rIsInitialized old) (rIsInitialized new)).

(** Re-render with the queued updates applied, then run the save effect
    when its deps changed. *)
Definition commit (r : Render) (qs : list Queued) (st : Storage)
  : Render * Storage * list TodoState.t :=
  let r' := fold_left applyQueued qs r in
  if depsChanged qs r r' then
    let '(st', saved) := saveEffect r' st in (r', st', saved)
  else (r', st, []).

(** Mount: first render with [(initialState, false)]; its commit runs
    both effects in order, the save effect with the values of that
    first render; the queued updates then give the second render. *)
Definition mount (clock : Clock) (st : Storage) : Render * Storage * list TodoState.t :=
  let r1 := mkRender initialState false in
  let qs := loadEffect clock st in
  let '(st1, saved1) := saveEffect r1 st in
  let '(r2, st2, saved2) := commit r1 qs st1 in
  (r2, st2, (saved1 ++ saved2)%list).

(** Later dispatches through [addTodo], [updateTodo], ... *)
Fixpoint runDispatches (r : Render) (st : Storage) (acts : list (Clock * TodoAction))
  : Render * Storage * list TodoState.t :=
  match acts with
  | [] => (r, st, [])
  | (clock, a) :: acts' =>
      let '(r1, st1, saved1) := commit r [QDispatch clock a] st in
      let '(r2, st2, saved2) := runDispatches r1 st1 acts' in
      (r2, st2, (saved1 ++ saved2)%list)
  end.

(** One lifetime of the provider: mount, then the dispatches. *)
Definition TodoProvider (clock0 : Clock) (st : Storage) (acts : list (Clock * TodoAction))
  : Render * Storage * list TodoState.t :=
  let '(r1, st1, saved1) := mount clock0 st in
  let '(r2, st2, saved2) := runDispatches r1 st1 acts in
  (r2, st2, (saved1 ++ saved2)%list).

End Persistence.

(** A [JSON] codec for concrete runs: [JSON.parse] rejects a text that
    does not start with an opening brace (as it rejects ["invalid json"]);
    this codec reads every brace-opened text as the empty state. *)
Definition sampleJson : Json :=
  mkJson (fun _ => "{}")
    (fun txt => match txt with
                | String "{" _ => Ok initialState
                | _ => Throw "SyntaxError: Unexpected token"
                end).

(* ------------------------------------------------------------------ *)
(** ** Auxiliary definitions for the statements *)

(** Number of todos among [l] that [hit] selects. *)
Definition countHits (hit : Todo.t -> bool) (l : list Todo.t) : nat :=
  List.length (filter hit l).

(** Does the reducer read the clock on [(state, action)]?  Only an
    Update or Toggle whose id matches some todo does. *)
Definition readsClock (state : TodoState.t) (action : TodoAction) : bool :=
  match action with
  | UPDATE_TODO x _ | TOGGLE_TODO x =>
      existsb (fun todo => String.eqb (Todo.id todo) x) (TodoState.todos state)
  | _ => false
  end.

(** A todo with its [updatedAt] blanked out. *)
Definition eraseStamp (t : Todo.t) : Todo.t := withUpdatedAt t "".

(* ------------------------------------------------------------------ *)
(** ** Sample data *)

Definition sampleTodo (id : string) (done : bool) (created : string) : Todo.t :=
  Todo.mk id "Test Todo" None done Priority.medium None None [] created created.

Definition sampleState : TodoState.t :=
  TodoState.mk [sampleTodo "1" false "2025-01-01T00:00:00.000Z"] []
    (TodoState.filter initialState).

Definition hitsId (x : string) (todo : Todo.t) : bool := String.eqb (Todo.id todo) x.

Definition stampPatch : TodoPatch.t :=
  TodoPatch.mk None None None None None None None None None (Some "1999-01-01T00:00:00.000Z").

(** Successive readings of [new Date().toISOString()]. *)
Definition sampleClock : Clock :=
  fun k => match k with
           | O => "2025-01-15T12:00:00.000Z"
           | S O => "2025-01-15T12:00:00.001Z"
           | _ => "2025-01-15T12:00:00.002Z"
           end.

Definition dupState : TodoState.t :=
  TodoState.mk
    [sampleTodo "1" false "2025-01-01T00:00:00.000Z";
     sampleTodo "2" false "2025-01-02T00:00:00.000Z";
     sampleTodo "1" true "2025-01-03T00:00:00.000Z"]
    [Category.mk "c" "Work" "#ff0000"; Category.mk "c" "Home" "#00ff00"]
    (TodoState.filter initialState).

(** [updateTodo("1", { id: "2" })]: [Partial<Todo>] admits [id]. *)
Definition idPatch : TodoPatch.t :=
  TodoPatch.mk (Some "2") None None None None None None None None None.

(** Two calls of the reducer one second apart. *)
Definition laterClock : Clock := fun _ => "2025-01-15T12:00:01.000Z".

(** Three todos, two of them completed, for runs of the derived view. *)
Definition threeState : TodoState.t :=
  TodoState.mk
    [sampleTodo "c" true "2025-01-03T00:00:00.000Z";
     sampleTodo "a" false "2025-01-01T00:00:00.000Z";
     sampleTodo "d" true "2025-01-04T00:00:00.000Z"] []
    (TodoState.filter initialState).

(** Spec-side reading of the search filter: [needle] occurs in [hay]
    as a substring, letters compared up to case. *)
Definition containsCI (hay needle : string) : Prop :=
  exists pre w post : list ascii,
    list_ascii_of_string hay = (pre ++ w ++ post)%list /\
    map lowerAscii w = map lowerAscii (list_ascii_of_string needle).

(** A state whose category filter is the empty string. *)
Definition emptyCatState : TodoState.t :=
  TodoState.mk [sampleTodo "1" false "2025-01-01T00:00:00.000Z"] []
    (TodoFilter.mk "" (Some "") None true SortBy.createdAt).

(** The rank the dueDate comparator gives a todo: its due time when it
    has a (truthy) due date, [None] for no due date. *)
Definition dueKey (getTime : string -> option Z) (t : Todo.t) : option Z :=
  if truthyOpt (Todo.dueDate t) then getTime (dueDateText t) else None.

(** The order the claim describes: incomplete before completed; within
    a partition, dated todos ascending by due time, then the undated. *)
Definition dueLe (getTime : string -> option Z) (a b : Todo.t) : bool :=
  if Bool.eqb (Todo.completed a) (Todo.completed b) then
    match dueKey getTime a, dueKey getTime b with
    | Some x, Some y => (x <=? y)%Z
    | Some _, None => true
    | None, Some _ => false
    | None, None => true
    end
  else negb (Todo.completed a).

(** A todo whose due date, when present and non-empty, is a date. *)
Definition dueDateOk (getTime : string -> option Z) (t : Todo.t) : Prop :=
  truthyOpt (Todo.dueDate t) = true -> getTime (dueDateText t) <> None.

Definition optZEqb (a b : option Z) : bool :=
  match a, b with
  | Some x, Some y => (x =? y)%Z
  | None, None => true
  | _, _ => false
  end.

Definition dueTodo (id : string) (due : option string) : Todo.t :=
  Todo.mk id "Test Todo" None false Priority.medium due None []
    "2025-01-01T00:00:00.000Z" "2025-01-01T00:00:00.000Z".

(** Three incomplete todos sorted by due date. *)
Definition dueState : TodoState.t :=
  TodoState.mk
    [dueTodo "march" (Some "2025-03-01"); dueTodo "none" None;
     dueTodo "february" (Some "2025-02-01")] []
    (TodoFilter.mk "" None None true SortBy.dueDate).

(** Observations on a run of the provider. *)
Definition savedStates (run : Render * Storage * list TodoState.t) : list TodoState.t :=
  snd run.

Definition finalStorage (run : Render * Storage * list TodoState.t) : Storage :=
  snd (fst run).

Definition finalRender (run : Render * Storage * list TodoState.t) : Render :=
  fst (fst run).

(** The state the provider holds after the load effect. *)
Definition loadedOrDefault (json : Json) (st : Storage) : TodoState.t :=
  match loadFromLocalStorage json st with
  | Ok (Some s) => s
  | _ => initialState
  end.

(** The successive states reached by the dispatches. *)
Fixpoint statesAfter (s : TodoState.t) (acts : list (Clock * TodoAction)) : list TodoState.t :=
  match acts with
  | [] => []
  | (clock, a) :: acts' =>
      let s' := todoReducer clock s a in s' :: statesAfter s' acts'
  end.

(** A slot holding text that does not parse. *)
Definition corruptedStorage : Storage := mkStorage (Some "invalid json") false false.

(* ------------------------------------------------------------------ *)
(** ** String built-ins used by the forms *)

(** The white space [String.prototype.trim] removes, on ASCII text: tab,
    line feed, vertical tab, form feed, carriage return and space. *)
Definition isWhiteSpace (c : ascii) : bool :=
  let n := nat_of_ascii c in
  ((9 <=? n)%nat && (n <=? 13)%nat) || (n =? 32)%nat.

Fixpoint dropWhiteSpace (l : list ascii) : list ascii :=
  match l with
  | [] => []
  | c :: l' => if isWhiteSpace c then dropWhiteSpace l' else l
  end.

(** [s.trim()]: leading, then trailing white space removed. *)
Definition trim (s : string) : string :=
  string_of_list_ascii
    (rev (dropWhiteSpace (rev (dropWhiteSpace (list_ascii_of_string s))))).

(** [s.split(',')] on the characters: the pieces between commas, one
    more piece than there are commas ([''.split(',')] is [['']]). *)
Fixpoint splitComma (l : list ascii) : list (list ascii) :=
  match l with
  | [] => [[]]
  | c :: l' =>
      if Ascii.eqb c ","%char then [] :: splitComma l'
      else match splitComma l' with
           | [] => [[c]]
           | w :: ws => (c :: w) :: ws
           end
  end.

Definition splitOnComma (s : string) : list string :=
  map string_of_list_ascii (splitComma (list_ascii_of_string s)).

(** [xs.join(sep)] *)
Fixpoint join (sep : string) (xs : list string) : string :=
  match xs with
  | [] => ""
  | [x] => x
  | x :: xs' => x ++ sep ++ join sep xs'
  end.

(** [v || undefined] for a string [v]. *)
Definition orUndefined (v : string) : option string :=
  if truthy v then Some v else None.

(* ------------------------------------------------------------------ *)
(** ** The todo form ([TodoForm.tsx], unnamed part_003) *)

(** The six controlled fields of the form. *)
Record FormFields := mkFields {
  fTitle : string;
  fDescription : string;
  fPriority : Priority.t;
  fDueDate : string;
  fCategory : string;
  fTags : string
}.

(** [resetForm()] *)
Definition resetForm : FormFields := mkFields "" "" Priority.medium "" "" "".

(** The effect on [editingTodo]: the fields of the todo being edited,
    or the reset fields when there is none. *)
Definition formFieldsFor (editingTodo : option Todo.t) : FormFields :=
  match editingTodo with
  | Some t =>
      mkFields (Todo.title t) (override (Todo.description t) "") (Todo.priority t)
        (override (Todo.dueDate t) "") (override (Todo.category t) "")
        (join ", " (Todo.tags t))
  | None => resetForm
  end.

(** [tags.split(',').map(tag => tag.trim()).filter(tag => tag.length > 0)] *)
Definition parseTags (tags : string) : list string :=
  filter (fun tag => (0 <? String.length tag)%nat) (map trim (splitOnComma tags)).

(** What a submit of the form does: alert, [updateTodo(id, updates)] or
    [addTodo(newTodo)].  [newId] is the [uuidv4()] result and [clock]
    the two readings of [new Date().toISOString()]. *)
Inductive FormSubmit :=
| FormAlert
| FormUpdate (id : string) (updates : TodoPatch.t)
| FormAdd (newTodo : Todo.t).

Definition todoFormSubmit (editingTodo : option Todo.t) (f : FormFields)
  (newId : string) (clock : Clock) : FormSubmit :=
  if negb (truthy (trim (fTitle f))) then FormAlert
  else
    let tagArray := parseTags (fTags f) in
    match editingTodo with
    | Some e =>
        FormUpdate (Todo.id e)
          (TodoPatch.mk None (Some (trim (fTitle f)))
             (Some (orUndefined (trim (fDescription f)))) None (Some (fPriority f))
             (Some (orUndefined (fDueDate f))) (Some (orUndefined (fCategory f)))
             (Some tagArray) None None)
    | None =>
        FormAdd (Todo.mk newId (trim (fTitle f)) (orUndefined (trim (fDescription f)))
                   false (fPriority f) (orUndefined (fDueDate f))
                   (orUndefined (fCategory f)) tagArray (clock 0%nat) (clock 1%nat))
    end.

(** The action a submit dispatches, if any. *)
Definition formAction (s : FormSubmit) : option TodoAction :=
  match s with
  | FormAlert => None
  | FormUpdate id u => Some (UPDATE_TODO id u)
  | FormAdd t => Some (ADD_TODO t)
  end.

(* ------------------------------------------------------------------ *)
(** ** The category manager ([CategoryManager.tsx], unnamed part_001) *)

Inductive CategorySubmit :=
| CategoryAlertEmpty
| CategoryAlertDuplicate
| CategoryAdd (c : Category.t).

(** [handleSubmit]; [newId] is the [uuidv4()] result. *)
Definition categorySubmit (state : TodoState.t) (categoryName categoryColor newId : string)
  : CategorySubmit :=
  if negb (truthy (trim categoryName)) then CategoryAlertEmpty
  else
    let existing :=
      find (fun cat => String.eqb (toLowerCase (Category.name cat))
                                  (toLowerCase (trim categoryName)))
        (TodoState.categories state) in
    match existing with
    | Some _ => CategoryAlertDuplicate
    | None => CategoryAdd (Category.mk newId (trim categoryName) categoryColor)
    end.

(** The user's actions on the manager: a submit of the form, or a
    confirmed delete ([handleDelete] after [window.confirm]). *)
Inductive CategoryEvent :=
| SubmitCategory (categoryName categoryColor newId : string)
| ConfirmDelete (id : string).

Definition categoryStep (clock : Clock) (state : TodoState.t) (e : CategoryEvent)
  : TodoState.t :=
  match e with
  | SubmitCategory n col newId =>
      match categorySubmit state n col newId with
      | CategoryAdd c => todoReducer clock state (ADD_CATEGORY c)
      | _ => state
      end
  | ConfirmDelete id => todoReducer clock state (DELETE_CATEGORY id)
  end.

(* ------------------------------------------------------------------ *)
(** ** The filter panel ([TodoFilter.tsx]) *)

(** The panel's inputs.  The priority select offers [''], [high],
    [medium] and [low] ([None] is ['']); the sort select offers the three
    [SortBy] values. *)
Inductive FilterEvent :=
| SearchChange (value : string)
| CategoryChange (value : string)
| PriorityChange (value : option Priority.t)
| ShowCompletedChange (checked : bool)
| SortByChange (value : SortBy.t)
| ClearFilters.

(** The payload each handler passes to [setFilter]. *)
Definition filterPayload (e : FilterEvent) : FilterPatch.t :=
  match e with
  | SearchChange v => FilterPatch.mk (Some v) None None None None
  | CategoryChange v => FilterPatch.mk None (Some (orUndefined v)) None None None
  | PriorityChange v => FilterPatch.mk None None (Some v) None None
  | ShowCompletedChange b => FilterPatch.mk None None None (Some b) None
  | SortByChange v => FilterPatch.mk None None None None (Some v)
  | ClearFilters =>
      FilterPatch.mk (Some "") (Some None) (Some None) (Some true) (Some SortBy.createdAt)
  end.

Definition filterStep (clock : Clock) (state : TodoState.t) (e : FilterEvent) : TodoState.t :=
  todoReducer clock state (SET_FILTER (filterPayload e)).

(* ------------------------------------------------------------------ *)
(** ** Auxiliary definitions for the further properties *)

(** A tag the form can show and read back: non-empty, without a comma,
    without surrounding white space. *)
Definition tagOk (tag : string) : Prop :=
  tag <> "" /\ ~ In ","%char (list_ascii_of_string tag) /\ trim tag = tag.

(** A todo whose fields the form reproduces: a trimmed non-empty title
    and description (or none), due date and category non-empty (or
    none), tags as [tagOk]. *)
Definition formShaped (t : Todo.t) : Prop :=
  Todo.title t <> "" /\ trim (Todo.title t) = Todo.title t /\
  (forall d, Todo.description t = Some d -> d <> "" /\ trim d = d) /\
  Todo.dueDate t <> Some "" /\ Todo.category t <> Some "" /\
  Forall tagOk (Todo.tags t).

(** The lower-cased names of the categories. *)
Definition lowerNames (state : TodoState.t) : list string :=
  map (fun c => toLowerCase (Category.name c)) (TodoState.categories state).

(** The order the priority sort aims at: incomplete before completed,
    then high, medium, low. *)
Definition priorityLe (a b : Todo.t) : bool :=
  if Bool.eqb (Todo.completed a) (Todo.completed b)
  then (priorityOrder (Todo.priority a) <=? priorityOrder (Todo.priority b))%Z
  else negb (Todo.completed a).

(** The order the createdAt sort aims at: incomplete before completed,
    then newest first. *)
Definition createdLe (getTime : string -> option Z) (a b : Todo.t) : bool :=
  if Bool.eqb (Todo.completed a) (Todo.completed b)
  then match getTime (Todo.createdAt a), getTime (Todo.createdAt b) with
       | Some x, Some y => (y <=? x)%Z
       | _, _ => true
       end
  else negb (Todo.completed a).

(** Two filters that differ only in their search text. *)
Definition withSearch (f : TodoFilter.t) (s : string) : TodoFilter.t :=
  TodoFilter.mk s (TodoFilter.category f) (TodoFilter.priority f)
    (TodoFilter.showCompleted f) (TodoFilter.sortBy f).

(** A todo as the sample form would edit it. *)
Definition formTodo : Todo.t :=
  Todo.mk "1" "Buy milk" (Some "2 bottles") false Priority.high (Some "2025-02-01")
    (Some "Home") ["shop"; "food"] "2025-01-01T00:00:00.000Z" "2025-01-01T00:00:00.000Z".

(** A storage that accepts writes and reads. *)
Definition emptyStorage : Storage := mkStorage None false false.

Definition prioTodo (id : string) (p : Priority.t) : Todo.t :=
  Todo.mk id "Test Todo" None false p None None []
    "2025-01-01T00:00:00.000Z" "2025-01-01T00:00:00.000Z".

(** Three incomplete todos sorted by priority. *)
Definition prioState : TodoState.t :=
  TodoState.mk
    [prioTodo "l" Priority.low; prioTodo "h" Priority.high; prioTodo "m" Priority.medium] []
    (TodoFilter.mk "" None None true SortBy.priority).

(** The categories are well formed: their names are non-empty and
    trimmed, and no two are equal up to letter case. *)
Definition categoriesWellFormed (state : TodoState.t) : Prop :=
  NoDup (lowerNames state) /\
  Forall (fun c => Category.name c <> "" /\ trim (Category.name c) = Category.name c)
    (TodoState.categories state).

(* ================================================================== *)
(** * Properties *)

Open Scope list_scope.

(** ** Concrete runs *)

Example reducer_toggle_sample :
  map Todo.completed
    (TodoState.todos (todoReducer (fun _ => "2025-01-15T12:00:00.000Z") sampleState
                        (TOGGLE_TODO "1"))) = [true].
Proof. reflexivity. Qed.

Example view_sample :
  map Todo.id (filteredAndSortedTodos isoKey
    (TodoState.mk [sampleTodo "a" false "2025-01-01"; sampleTodo "b" false "2025-01-02";
                   sampleTodo "c" true "2025-01-03"] [] (TodoState.filter initialState)))
  = ["b"; "a"; "c"].
Proof. reflexivity. Qed.

(* ------------------------------------------------------------------ *)
(** ** The reducer *)

Section MapStamped.
Variables (hit : Todo.t -> bool) (f : Todo.t -> string -> Todo.t).

Lemma mapStamped_no_hit : forall clock k l,
  (forall t, In t l -> hit t = false) -> mapStamped clock k hit f l = l.
Proof.
  intros clock k l; revert k; induction l as [|t l IH]; intros k Hno; simpl.
  - reflexivity.
  - rewrite (Hno t (or_introl eq_refl)).
    rewrite IH; [reflexivity|]. intros u Hu; apply Hno; right; exact Hu.
Qed.

Lemma mapStamped_nth : forall clock l k i t,
  nth_error l i = Some t ->
  nth_error (mapStamped clock k hit f l) i =
    Some (if hit t then f t (clock (k + countHits hit (firstn i l))%nat) else t).
Proof.
  intros clock l; induction l as [|u l IH]; intros k i t Hi.
  - destruct i; discriminate.
  - destruct i as [|i]; simpl in Hi |- *.
    + injection Hi as <-. unfold countHits; simpl.
      destruct (hit u); rewrite ?Nat.add_0_r; reflexivity.
    + unfold countHits; simpl.
      destruct (hit u) eqn:Hu; simpl; rewrite (IH _ _ _ Hi); unfold countHits.
      * destruct (hit t); [rewrite Nat.add_succ_comm; reflexivity | reflexivity].
      * reflexivity.
Qed.

Lemma mapStamped_erase : forall clock1 clock2 k1 k2 l,
  (forall t n1 n2, eraseStamp (f t n1) = eraseStamp (f t n2)) ->
  map eraseStamp (mapStamped clock1 k1 hit f l) =
  map eraseStamp (mapStamped clock2 k2 hit f l).
Proof.
  intros clock1 clock2 k1 k2 l; revert k1 k2; induction l as [|t l IH];
    intros k1 k2 Hf; simpl; [reflexivity|].
  destruct (hit t); simpl.
  - rewrite (IH (S k1) (S k2) Hf), (Hf t (clock1 k1) (clock2 k2)); reflexivity.
  - rewrite (IH k1 k2 Hf); reflexivity.
Qed.

End MapStamped.

Lemma filter_all_true : forall {A} (p : A -> bool) l,
  (forall x, In x l -> p x = true) -> filter p l = l.
Proof.
  intros A p l; induction l as [|x l IH]; intros H; simpl; [reflexivity|].
  rewrite (H x (or_introl eq_refl)), IH; [reflexivity|].
  intros y Hy; apply H; right; exact Hy.
Qed.

Lemma eqb_id_false : forall (l : list Todo.t) x,
  (forall t, In t l -> Todo.id t <> x) ->
  forall t, In t l -> String.eqb (Todo.id t) x = false.
Proof.
  intros l x H t Ht. apply String.eqb_neq, H, Ht.
Qed.

(** C8: Update, Delete and Toggle with an id that no todo carries
    return a state equal to the input in every field. *)
Theorem noop_on_missing_id : forall clock (S : TodoState.t) x u,
  (forall t, In t (TodoState.todos S) -> Todo.id t <> x) ->
  todoReducer clock S (UPDATE_TODO x u) = S /\
  todoReducer clock S (DELETE_TODO x) = S /\
  todoReducer clock S (TOGGLE_TODO x) = S.
Proof.
  intros clock [todos cats f] x u Hmiss; simpl in Hmiss |- *.
  pose proof (eqb_id_false todos x Hmiss) as Hf.
  repeat split.
  - rewrite mapStamped_no_hit; [reflexivity | exact Hf].
  - rewrite filter_all_true; [reflexivity|].
    intros t Ht; rewrite (Hf t Ht); reflexivity.
  - rewrite mapStamped_no_hit; [reflexivity | exact Hf].
Qed.

Lemma noop_on_missing_id_witness :
  (forall t, In t (TodoState.todos sampleState) -> Todo.id t <> "42") /\
  todoReducer (fun _ => "2025-01-15T12:00:00.000Z") sampleState
    (UPDATE_TODO "42" TodoPatch.empty) = sampleState /\
  todoReducer (fun _ => "2025-01-15T12:00:00.000Z") sampleState (DELETE_TODO "42")
    = sampleState /\
  todoReducer (fun _ => "2025-01-15T12:00:00.000Z") sampleState (TOGGLE_TODO "42")
    = sampleState.
Proof.
  assert (H : forall t, In t (TodoState.todos sampleState) -> Todo.id t <> "42").
  { simpl; intros t [<- | []]; simpl; discriminate. }
  split; [exact H | apply (noop_on_missing_id _ sampleState "42" TodoPatch.empty H)].
Defined.

(** C9: after an Update whose id matches the todo at position [i], that
    todo's [updatedAt] is the clock reading the reducer took for it, for
    every payload: the empty one, and one carrying its own [updatedAt]
    (overridden, since the stamp is written after the merge). *)
Theorem update_refreshes_updatedAt : forall clock S x u i t,
  nth_error (TodoState.todos S) i = Some t -> Todo.id t = x ->
  exists t',
    nth_error (TodoState.todos (todoReducer clock S (UPDATE_TODO x u))) i = Some t' /\
    Todo.updatedAt t' = clock (countHits (hitsId x) (firstn i (TodoState.todos S))).
Proof.
  intros clock S x u i t Hi Hid; simpl.
  rewrite (mapStamped_nth _ _ clock _ 0 i t Hi).
  rewrite Hid, String.eqb_refl.
  eexists; split; [reflexivity | reflexivity].
Qed.

Lemma update_refreshes_updatedAt_witness :
  nth_error (TodoState.todos sampleState) 0 = Some (sampleTodo "1" false "2025-01-01T00:00:00.000Z") /\
  Todo.id (sampleTodo "1" false "2025-01-01T00:00:00.000Z") = "1" /\
  exists t',
    nth_error (TodoState.todos (todoReducer (fun _ => "2025-01-15T12:00:00.000Z")
                                  sampleState (UPDATE_TODO "1" stampPatch))) 0 = Some t' /\
    Todo.updatedAt t' = "2025-01-15T12:00:00.000Z".
Proof.
  split; [reflexivity|]. split; [reflexivity|].
  exact (update_refreshes_updatedAt (fun _ => "2025-01-15T12:00:00.000Z") sampleState "1"
           stampPatch 0 _ eq_refl eq_refl).
Defined.

(** C10: the id-keyed operations act on every match.  Delete Todo leaves
    no todo with the id; Update and Toggle rewrite (and re-stamp) every
    todo with the id; Delete Category leaves no category with the id. *)
Theorem id_ops_act_on_every_match : forall clock S x u,
  (forall t, In t (TodoState.todos (todoReducer clock S (DELETE_TODO x))) ->
     Todo.id t <> x) /\
  (forall c, In c (TodoState.categories (todoReducer clock S (DELETE_CATEGORY x))) ->
     Category.id c <> x) /\
  (forall i t, nth_error (TodoState.todos S) i = Some t -> Todo.id t = x ->
     nth_error (TodoState.todos (todoReducer clock S (UPDATE_TODO x u))) i =
       Some (withUpdatedAt (spreadTodo t u)
               (clock (countHits (hitsId x) (firstn i (TodoState.todos S)))))) /\
  (forall i t, nth_error (TodoState.todos S) i = Some t -> Todo.id t = x ->
     nth_error (TodoState.todos (todoReducer clock S (TOGGLE_TODO x))) i =
       Some (toggled t (clock (countHits (hitsId x) (firstn i (TodoState.todos S)))))).
Proof.
  intros clock S x u; repeat split; simpl.
  - intros t Ht Heq. apply filter_In in Ht as [_ Hb].
    rewrite Heq, String.eqb_refl in Hb; discriminate.
  - intros c Hc Heq. apply filter_In in Hc as [_ Hb].
    rewrite Heq, String.eqb_refl in Hb; discriminate.
  - intros i t Hi Hid.
    rewrite (mapStamped_nth _ _ clock _ 0 i t Hi), Hid, String.eqb_refl; reflexivity.
  - intros i t Hi Hid.
    rewrite (mapStamped_nth _ _ clock _ 0 i t Hi), Hid, String.eqb_refl; reflexivity.
Qed.

Lemma id_ops_act_on_every_match_witness :
  nth_error (TodoState.todos (todoReducer sampleClock dupState
                                (TOGGLE_TODO "1"))) 2 =
    Some (toggled (sampleTodo "1" true "2025-01-03T00:00:00.000Z") "2025-01-15T12:00:00.001Z").
Proof.
  destruct (id_ops_act_on_every_match sampleClock dupState "1" TodoPatch.empty)
    as [_ [_ [_ H]]].
  exact (H 2%nat _ eq_refl eq_refl).
Defined.

(** C5 (claim as stated, refuted): an Update whose payload carries [id]
    changes the id of the matched todo, since the shallow merge copies
    every field the payload supplies. *)
Lemma update_can_change_id :
  map Todo.id (TodoState.todos sampleState) = ["1"] /\
  map Todo.id (TodoState.todos (todoReducer sampleClock sampleState
                                   (UPDATE_TODO "1" idPatch))) = ["2"].
Proof. split; reflexivity. Qed.

(** C5 (amended): for a payload that supplies neither [id] nor
    [createdAt], every todo keeps its [id] and [createdAt]; the matched
    ones become the merge of the payload with [updatedAt] re-stamped,
    the others are unchanged. *)
Theorem update_keeps_id_createdAt : forall clock S x u i t,
  TodoPatch.id u = None -> TodoPatch.createdAt u = None ->
  nth_error (TodoState.todos S) i = Some t ->
  exists t',
    nth_error (TodoState.todos (todoReducer clock S (UPDATE_TODO x u))) i = Some t' /\
    Todo.id t' = Todo.id t /\ Todo.createdAt t' = Todo.createdAt t /\
    (if String.eqb (Todo.id t) x
     then t' = withUpdatedAt (spreadTodo t u) (Todo.updatedAt t')
     else t' = t).
Proof.
  intros clock S x u i t Hid Hcr Hi; simpl.
  rewrite (mapStamped_nth _ _ clock _ 0 i t Hi).
  destruct (String.eqb (Todo.id t) x); eexists; split; try reflexivity.
  - simpl; rewrite Hid, Hcr; repeat split.
  - repeat split.
Qed.

Lemma update_keeps_id_createdAt_witness :
  exists t',
    nth_error (TodoState.todos (todoReducer sampleClock sampleState
                                  (UPDATE_TODO "1" stampPatch))) 0 = Some t' /\
    Todo.id t' = "1" /\ Todo.createdAt t' = "2025-01-01T00:00:00.000Z" /\
    t' = withUpdatedAt (spreadTodo (sampleTodo "1" false "2025-01-01T00:00:00.000Z")
                          stampPatch) (Todo.updatedAt t').
Proof.
  destruct (update_keeps_id_createdAt sampleClock sampleState "1" stampPatch 0
              (sampleTodo "1" false "2025-01-01T00:00:00.000Z") eq_refl eq_refl eq_refl)
    as [t' [H1 [H2 [H3 H4]]]].
  exists t'; split; [exact H1|]; split; [exact H2|]; split; [exact H3|exact H4].
Defined.

(** C1 (claim as stated, refuted): the reducer reads the ambient clock,
    so two calls with the same state and action made at different
    instants return different states. *)
Lemma reducer_reads_clock :
  todoReducer sampleClock sampleState (TOGGLE_TODO "1") <>
  todoReducer laterClock sampleState (TOGGLE_TODO "1").
Proof.
  intros H.
  apply (f_equal (fun s => map Todo.updatedAt (TodoState.todos s))) in H.
  vm_compute in H; discriminate H.
Qed.

(** C1 (amended): the result is a function of the state, the action and
    the clock readings taken during the call.  Calls with the same state
    and action agree on categories and filter, and on the todos up to
    their [updatedAt]; they agree entirely when the action is not an
    Update or Toggle of an id present in the state. *)
Theorem reducer_clock_only_stamps : forall clock1 clock2 S A,
  TodoState.categories (todoReducer clock1 S A) = TodoState.categories (todoReducer clock2 S A) /\
  TodoState.filter (todoReducer clock1 S A) = TodoState.filter (todoReducer clock2 S A) /\
  map eraseStamp (TodoState.todos (todoReducer clock1 S A)) =
    map eraseStamp (TodoState.todos (todoReducer clock2 S A)) /\
  (readsClock S A = false -> todoReducer clock1 S A = todoReducer clock2 S A).
Proof.
  intros clock1 clock2 S A.
  destruct A as [t|x u|x|x|c|x|fp|s]; simpl; repeat split; try reflexivity.
  - apply mapStamped_erase; intros; reflexivity.
  - intros Hr. rewrite !mapStamped_no_hit; [reflexivity| |];
      intros t Ht; apply Bool.not_true_iff_false; intros Hb;
      rewrite <- Bool.not_true_iff_false in Hr; apply Hr, existsb_exists; eauto.
  - apply mapStamped_erase; intros; reflexivity.
  - intros Hr. rewrite !mapStamped_no_hit; [reflexivity| |];
      intros t Ht; apply Bool.not_true_iff_false; intros Hb;
      rewrite <- Bool.not_true_iff_false in Hr; apply Hr, existsb_exists; eauto.
Qed.

Lemma reducer_clock_only_stamps_witness :
  readsClock sampleState (TOGGLE_TODO "42") = false /\
  todoReducer sampleClock sampleState (TOGGLE_TODO "42") =
  todoReducer laterClock sampleState (TOGGLE_TODO "42").
Proof.
  split; [reflexivity|].
  destruct (reducer_clock_only_stamps sampleClock laterClock sampleState (TOGGLE_TODO "42"))
    as [_ [_ [_ H]]].
  exact (H eq_refl).
Defined.

(* ------------------------------------------------------------------ *)
(** ** The stable sort *)

Section Sorting.
Variable cmp : Todo.t -> Todo.t -> option Z.

Lemma insertBy_perm : forall x l, Permutation (x :: l) (insertBy cmp x l).
Proof.
  intros x l; induction l as [|y l IH]; simpl; [reflexivity|].
  destruct (0 <? sortCompare cmp y x)%Z; [reflexivity|].
  eapply perm_trans; [apply perm_swap|]. constructor; exact IH.
Qed.

Lemma sortBy_perm_acc : forall l acc,
  Permutation (acc ++ l) (fold_left (fun acc x => insertBy cmp x acc) l acc).
Proof.
  intros l; induction l as [|x l IH]; intros acc; simpl.
  - rewrite app_nil_r; reflexivity.
  - eapply perm_trans; [|apply IH].
    eapply perm_trans; [apply Permutation_sym, Permutation_middle|].
    apply (Permutation_app_tail l (insertBy_perm x acc)).
Qed.

Lemma sortBy_perm : forall l, Permutation l (sortBy cmp l).
Proof. intros l; exact (sortBy_perm_acc l []). Qed.

Lemma In_sortBy : forall t l, In t (sortBy cmp l) <-> In t l.
Proof.
  intros t l; split; intros H.
  - apply (Permutation_in t (Permutation_sym (sortBy_perm l)) H).
  - apply (Permutation_in t (sortBy_perm l) H).
Qed.

Lemma Forall_perm : forall (P : Todo.t -> Prop) l l',
  Permutation l l' -> Forall P l -> Forall P l'.
Proof.
  intros P l l' Hp H; rewrite Forall_forall in H |- *.
  intros x Hx; apply H, (Permutation_in x (Permutation_sym Hp) Hx).
Qed.

(** Sortedness of the output, for an order [le] on the todos satisfying
    [ok] that agrees with the sign of the comparator. *)
Variable le : Todo.t -> Todo.t -> bool.
Variable ok : Todo.t -> Prop.
Hypothesis le_trans : forall a b c, ok a -> ok b -> ok c ->
  le a b = true -> le b c = true -> le a c = true.
Hypothesis cmp_pos : forall y x, ok y -> ok x ->
  (0 < sortCompare cmp y x)%Z -> le x y = true.
Hypothesis cmp_le : forall y x, ok y -> ok x ->
  ~ (0 < sortCompare cmp y x)%Z -> le y x = true.

Definition leP (a b : Todo.t) : Prop := le a b = true.

Lemma insertBy_sorted : forall x l,
  Forall ok (x :: l) -> StronglySorted leP l -> StronglySorted leP (insertBy cmp x l).
Proof.
  intros x l; induction l as [|y l IH]; intros Hok Hs; simpl.
  - constructor; [constructor | constructor].
  - inversion Hok as [|? ? Hx Hyl]; subst. inversion Hyl as [|? ? Hy Hl]; subst.
    inversion Hs as [|? ? Hsl Hfy]; subst.
    destruct (0 <? sortCompare cmp y x)%Z eqn:Hc.
    + apply Z.ltb_lt in Hc. pose proof (cmp_pos y x Hy Hx Hc) as Hxy.
      constructor; [exact Hs|]. constructor; [exact Hxy|].
      rewrite Forall_forall in Hfy, Hl |- *. intros z Hz.
      apply (le_trans x y z Hx Hy (Hl z Hz) Hxy (Hfy z Hz)).
    + apply Z.ltb_nlt in Hc. pose proof (cmp_le y x Hy Hx Hc) as Hyx.
      constructor; [apply IH; [constructor; assumption | exact Hsl]|].
      apply (Forall_perm _ _ _ (insertBy_perm x l)). constructor; assumption.
Qed.

Lemma sortBy_sorted_acc : forall l acc,
  Forall ok (acc ++ l) -> StronglySorted leP acc ->
  StronglySorted leP (fold_left (fun acc x => insertBy cmp x acc) l acc).
Proof.
  intros l; induction l as [|x l IH]; intros acc Hok Hs; simpl; [exact Hs|].
  apply Forall_app in Hok as [Hacc Hxl]. inversion Hxl as [|? ? Hx Hl]; subst.
  apply IH.
  - apply Forall_app; split; [|exact Hl].
    apply (Forall_perm _ _ _ (insertBy_perm x acc)); constructor; assumption.
  - apply insertBy_sorted; [constructor|]; assumption.
Qed.

Lemma sortBy_sorted : forall l, Forall ok l -> StronglySorted leP (sortBy cmp l).
Proof.
  intros l Hok; apply sortBy_sorted_acc; [exact Hok | constructor].
Qed.

End Sorting.

Lemma StronglySorted_nth : forall {A} (R : A -> A -> Prop) l i j a b,
  StronglySorted R l -> (i < j)%nat ->
  nth_error l i = Some a -> nth_error l j = Some b -> R a b.
Proof.
  intros A R l; induction l as [|x l IH]; intros i j a b Hs Hij Hi Hj.
  - destruct i; discriminate.
  - inversion Hs as [|? ? Hsl Hfx]; subst.
    destruct i as [|i], j as [|j]; simpl in Hi, Hj; try lia.
    + injection Hi as <-. rewrite Forall_forall in Hfx.
      apply Hfx, (nth_error_In _ _ Hj).
    + apply (IH i j); auto; lia.
Qed.

Section Stability.
Variable cmp : Todo.t -> Todo.t -> option Z.
Variable le : Todo.t -> Todo.t -> bool.
Variable ok : Todo.t -> Prop.
Hypothesis le_trans : forall a b c, ok a -> ok b -> ok c ->
  le a b = true -> le b c = true -> le a c = true.
Hypothesis le_total : forall a b, ok a -> ok b -> le a b = true \/ le b a = true.
Hypothesis cmp_pos : forall y x, ok y -> ok x ->
  (0 < sortCompare cmp y x)%Z -> le y x = false.
Hypothesis cmp_le : forall y x, ok y -> ok x ->
  ~ (0 < sortCompare cmp y x)%Z -> le y x = true.
(** [P] picks todos the order ranks equal. *)
Variable P : Todo.t -> bool.
Hypothesis P_equal : forall w x, ok w -> ok x -> P w = true -> P x = true -> le w x = true.

Lemma filter_none : forall {A} (p : A -> bool) l,
  (forall x, In x l -> p x = false) -> filter p l = [].
Proof.
  intros A p l; induction l as [|x l IH]; intros H; simpl; [reflexivity|].
  rewrite (H x (or_introl eq_refl)). apply IH; intros y Hy; apply H; right; exact Hy.
Qed.

Lemma insertBy_stable : forall x l,
  Forall ok (x :: l) -> StronglySorted (leP le) l ->
  filter P (insertBy cmp x l) = filter P l ++ filter P [x].
Proof.
  intros x l; induction l as [|y l IH]; intros Hok Hs; [reflexivity|].
  inversion Hok as [|? ? Hx Hyl]; subst. inversion Hyl as [|? ? Hy Hl]; subst.
  inversion Hs as [|? ? Hsl Hfy]; subst.
  change (insertBy cmp x (y :: l)) with
    (if (0 <? sortCompare cmp y x)%Z then x :: y :: l else y :: insertBy cmp x l).
  destruct (0 <? sortCompare cmp y x)%Z eqn:Hc.
  - apply Z.ltb_lt in Hc. pose proof (cmp_pos y x Hy Hx Hc) as Hyx.
    change (filter P (x :: y :: l)) with
      (if P x then x :: filter P (y :: l) else filter P (y :: l)).
    change (filter P [x]) with (if P x then [x] else []).
    destruct (P x) eqn:HPx.
    + rewrite (filter_none P (y :: l)); [reflexivity|].
      intros w [<- | Hw]; apply Bool.not_true_iff_false; intros HPw.
      * rewrite (P_equal y x Hy Hx HPw HPx) in Hyx; discriminate.
      * rewrite Forall_forall in Hl, Hfy.
        pose proof (P_equal w x (Hl w Hw) Hx HPw HPx) as Hwx.
        rewrite (le_trans y w x Hy (Hl w Hw) Hx (Hfy w Hw) Hwx) in Hyx; discriminate.
    + rewrite app_nil_r. reflexivity.
  - change (filter P (y :: insertBy cmp x l)) with
      (if P y then y :: filter P (insertBy cmp x l) else filter P (insertBy cmp x l)).
    change (filter P (y :: l)) with (if P y then y :: filter P l else filter P l).
    rewrite (IH (Forall_cons _ Hx Hl) Hsl).
    destruct (P y); reflexivity.
Qed.

Lemma sortBy_stable_acc : forall l acc,
  Forall ok (acc ++ l) -> StronglySorted (leP le) acc ->
  filter P (fold_left (fun acc x => insertBy cmp x acc) l acc) = filter P acc ++ filter P l.
Proof.
  intros l; induction l as [|x l IH]; intros acc Hok Hs; simpl.
  - rewrite app_nil_r; reflexivity.
  - apply Forall_app in Hok as [Hacc Hxl]. inversion Hxl as [|? ? Hx Hl]; subst.
    assert (Hok' : Forall ok (insertBy cmp x acc)).
    { apply (Forall_perm _ _ _ (insertBy_perm cmp x acc)); constructor; assumption. }
    rewrite IH.
    + rewrite (insertBy_stable x acc (Forall_cons _ Hx Hacc) Hs), <- app_assoc.
      change (filter P [x]) with (if P x then [x] else []).
      destruct (P x); reflexivity.
    + apply Forall_app; split; assumption.
    + apply (insertBy_sorted cmp le ok le_trans); try assumption.
      * intros y z Hy Hz Hc.
        destruct (le_total y z Hy Hz) as [H|H]; [|exact H].
        rewrite (cmp_pos y z Hy Hz Hc) in H; discriminate.
      * constructor; assumption.
Qed.

End Stability.

(* ------------------------------------------------------------------ *)
(** ** The derived view: partition *)

Lemma compare_partition : forall getTime sb a b,
  Todo.completed a = true -> Todo.completed b = false ->
  sortCompare (compareTodos getTime sb) a b = 1%Z /\
  sortCompare (compareTodos getTime sb) b a = (-1)%Z.
Proof.
  intros getTime sb a b Ha Hb. unfold sortCompare, compareTodos.
  rewrite Ha, Hb. split; reflexivity.
Qed.

Definition completedLe (a b : Todo.t) : bool := implb (Todo.completed a) (Todo.completed b).

Lemma view_partitioned : forall getTime S,
  StronglySorted (leP completedLe) (filteredAndSortedTodos getTime S).
Proof.
  intros getTime S. unfold filteredAndSortedTodos.
  apply (sortBy_sorted _ completedLe (fun _ => True)).
  - intros a b c _ _ _. unfold completedLe.
    destruct (Todo.completed a), (Todo.completed b), (Todo.completed c); simpl; congruence.
  - intros y x _ _ Hc. unfold completedLe.
    destruct (Todo.completed x) eqn:Hx, (Todo.completed y) eqn:Hy; try reflexivity.
    rewrite (proj2 (compare_partition getTime _ x y Hx Hy)) in Hc; lia.
  - intros y x _ _ Hc. unfold completedLe.
    destruct (Todo.completed x) eqn:Hx, (Todo.completed y) eqn:Hy; try reflexivity.
    rewrite (proj1 (compare_partition getTime _ y x Hy Hx)) in Hc; lia.
  - apply Forall_forall; intros; exact I.
Qed.

(** C2: in the derived view, for every state and every filter setting,
    a completed todo never precedes an incomplete one: whatever follows
    a completed todo is completed. *)
Theorem partition_law : forall getTime S i j a b,
  (i < j)%nat ->
  nth_error (filteredAndSortedTodos getTime S) i = Some a ->
  nth_error (filteredAndSortedTodos getTime S) j = Some b ->
  Todo.completed a = true -> Todo.completed b = true.
Proof.
  intros getTime S i j a b Hij Hi Hj Ha.
  pose proof (StronglySorted_nth _ _ i j a b (view_partitioned getTime S) Hij Hi Hj) as H.
  unfold leP, completedLe in H. rewrite Ha in H. exact H.
Qed.

Lemma partition_law_witness :
  map Todo.id (filteredAndSortedTodos isoKey threeState) = ["a"; "d"; "c"] /\
  Todo.completed (sampleTodo "c" true "2025-01-03T00:00:00.000Z") = true.
Proof.
  split; [reflexivity|].
  apply (partition_law isoKey threeState 1 2 (sampleTodo "d" true "2025-01-04T00:00:00.000Z"));
    [lia | reflexivity | reflexivity | reflexivity].
Defined.

(* ------------------------------------------------------------------ *)
(** ** The derived view: filters *)

Lemma isPrefix_spec : forall p s, isPrefix p s = true <-> exists post, s = p ++ post.
Proof.
  intros p; induction p as [|a p IH]; intros s; simpl.
  - split; [intros _; exists s; reflexivity | reflexivity].
  - destruct s as [|b s].
    + split; [discriminate | intros [post H]; discriminate].
    + rewrite Bool.andb_true_iff, Ascii.eqb_eq, IH. split.
      * intros [-> [post ->]]; exists post; reflexivity.
      * intros [post H]; injection H as -> ->; split; [reflexivity|]; exists post; reflexivity.
Qed.

Lemma includesL_spec : forall s p,
  includesL s p = true <-> exists pre post, s = pre ++ p ++ post.
Proof.
  intros s; induction s as [|c s IH]; intros p; simpl; rewrite Bool.orb_true_iff, isPrefix_spec.
  - split.
    + intros [[post H] | H]; [exists [], post; exact H | discriminate].
    + intros [pre [post H]]; left; exists post.
      destruct pre; [exact H | discriminate].
  - rewrite IH. split.
    + intros [[post H] | [pre [post H]]].
      * exists [], post; exact H.
      * exists (c :: pre), post; rewrite H; reflexivity.
    + intros [[|c' pre] [post H]].
      * left; exists post; exact H.
      * right; injection H as _ H; exists pre, post; exact H.
Qed.

(** The code's search test agrees with the spec-side reading. *)
Lemma includes_lower_spec : forall hay needle,
  includes (toLowerCase hay) (toLowerCase needle) = true <-> containsCI hay needle.
Proof.
  intros hay needle. unfold includes, toLowerCase, containsCI.
  rewrite !list_ascii_of_string_of_list_ascii, includesL_spec. split.
  - intros [pre [post H]].
    destruct (map_eq_app _ _ _ _ H) as [l1 [l2 [Hh [_ H2]]]].
    destruct (map_eq_app _ _ _ _ H2) as [w [post' [Hl2 [Hw _]]]].
    exists l1, w, post'. rewrite Hh, Hl2. split; [reflexivity | exact Hw].
  - intros [pre [w [post [Hh Hw]]]].
    exists (map lowerAscii pre), (map lowerAscii post).
    rewrite Hh, !map_app, Hw. reflexivity.
Qed.

Lemma matchesSearch_spec : forall s t,
  matchesSearch (toLowerCase s) t = true <->
  containsCI (Todo.title t) s \/ exists d, Todo.description t = Some d /\ containsCI d s.
Proof.
  intros s t. unfold matchesSearch. rewrite Bool.orb_true_iff, includes_lower_spec.
  destruct (Todo.description t) as [d|].
  - rewrite includes_lower_spec. split.
    + intros [H|H]; [left; exact H | right; exists d; split; [reflexivity | exact H]].
    + intros [H | [d' [Hd H]]]; [left; exact H | right; injection Hd as <-; exact H].
  - split.
    + intros [H|H]; [left; exact H | discriminate].
    + intros [H | [d' [Hd _]]]; [left; exact H | discriminate].
Qed.

Lemma truthy_true : forall s, truthy s = true <-> s <> "".
Proof.
  intros [|c s]; simpl; split; congruence.
Qed.

Lemma In_if_filter : forall {A} (b : bool) (p : A -> bool) l x,
  In x (if b then filter p l else l) <-> In x l /\ (b = true -> p x = true).
Proof.
  intros A b p l x; destruct b; [rewrite filter_In|]; split.
  - intros [H1 H2]; split; [exact H1 | intros _; exact H2].
  - intros [H1 H2]; split; [exact H1 | apply H2; reflexivity].
  - intros H; split; [exact H | discriminate].
  - intros [H _]; exact H.
Qed.

Lemma In_match_filter : forall {A B} (o : option B) (p : B -> A -> bool) l x,
  In x (match o with Some v => filter (p v) l | None => l end) <->
  In x l /\ (forall v, o = Some v -> p v x = true).
Proof.
  intros A B o p l x; destruct o as [v|]; [rewrite filter_In|]; split.
  - intros [H1 H2]; split; [exact H1 | intros v' Hv; injection Hv as <-; exact H2].
  - intros [H1 H2]; split; [exact H1 | apply H2; reflexivity].
  - intros H; split; [exact H | discriminate].
  - intros [H _]; exact H.
Qed.

Lemma In_applyFilters : forall f l t,
  In t (applyFilters f l) <->
  In t l /\
  (truthy (TodoFilter.searchText f) = true ->
     matchesSearch (toLowerCase (TodoFilter.searchText f)) t = true) /\
  (truthyOpt (TodoFilter.category f) = true ->
     optStringEqb (Todo.category t) (TodoFilter.category f) = true) /\
  (forall p, TodoFilter.priority f = Some p -> Priority.eqb (Todo.priority t) p = true) /\
  (negb (TodoFilter.showCompleted f) = true -> negb (Todo.completed t) = true).
Proof.
  intros f l t. unfold applyFilters; cbv zeta.
  rewrite In_if_filter,
    (In_match_filter (TodoFilter.priority f) (fun p todo => Priority.eqb (Todo.priority todo) p)),
    !In_if_filter.
  tauto.
Qed.

(** C3 (claim as stated, refuted): the category filter is a truthiness
    test, so a category filter set to the empty string matches every
    todo, including one whose category is not the empty string. *)
Lemma empty_category_filter_keeps_all :
  TodoFilter.category (TodoState.filter emptyCatState) = Some "" /\
  In (sampleTodo "1" false "2025-01-01T00:00:00.000Z")
     (filteredAndSortedTodos isoKey emptyCatState) /\
  Todo.category (sampleTodo "1" false "2025-01-01T00:00:00.000Z") <> Some "".
Proof.
  split; [reflexivity|]. split; [simpl; left; reflexivity | discriminate].
Qed.

Lemma search_cond_spec : forall s t,
  (truthy s = true -> matchesSearch (toLowerCase s) t = true) <->
  (s <> "" -> containsCI (Todo.title t) s \/
              exists d, Todo.description t = Some d /\ containsCI d s).
Proof. intros s t. rewrite truthy_true, matchesSearch_spec. reflexivity. Qed.

Lemma category_cond_spec : forall cat t,
  (truthyOpt cat = true -> optStringEqb (Todo.category t) cat = true) <->
  (forall c, cat = Some c -> c <> "" -> Todo.category t = Some c).
Proof.
  intros [c|] t; simpl.
  - rewrite truthy_true. split.
    + intros H c' Hc Hne; injection Hc as <-.
      specialize (H Hne). destruct (Todo.category t) as [c'|]; [|discriminate].
      apply String.eqb_eq in H; rewrite H; reflexivity.
    + intros H Hne. rewrite (H c eq_refl Hne). apply String.eqb_refl.
  - split; [intros _ c Hc; discriminate | intros _ H; discriminate].
Qed.

Lemma priority_eqb_spec : forall a b, Priority.eqb a b = true <-> a = b.
Proof. intros [] []; simpl; split; congruence. Qed.

Lemma priority_cond_spec : forall pr t,
  (forall p, pr = Some p -> Priority.eqb (Todo.priority t) p = true) <->
  (forall p, pr = Some p -> Todo.priority t = p).
Proof.
  intros pr t; split; intros H p Hp; apply priority_eqb_spec, H, Hp.
Qed.

Lemma completed_cond_spec : forall sc t,
  (negb sc = true -> negb (Todo.completed t) = true) <->
  (sc = false -> Todo.completed t = false).
Proof.
  intros sc t; destruct sc, (Todo.completed t); simpl; split; intros H H';
    try reflexivity; try discriminate; discriminate (H eq_refl).
Qed.

(** C3 (amended): a todo is in the derived view exactly when it is in
    the state and satisfies every active filter together: the search
    text, when non-empty, occurs case-insensitively in the title or in
    the description (a todo without description is judged on its title
    alone); the category filter, when it is a non-empty string, equals
    the todo's category (an empty-string category filter, like an absent
    one, matches every todo); the priority filter, when set, equals the
    todo's priority; and the todo is incomplete when [showCompleted] is
    false. *)
Theorem filter_composition : forall getTime S t,
  In t (filteredAndSortedTodos getTime S) <->
  In t (TodoState.todos S) /\
  (TodoFilter.searchText (TodoState.filter S) <> "" ->
     containsCI (Todo.title t) (TodoFilter.searchText (TodoState.filter S)) \/
     exists d, Todo.description t = Some d /\
               containsCI d (TodoFilter.searchText (TodoState.filter S))) /\
  (forall c, TodoFilter.category (TodoState.filter S) = Some c -> c <> "" ->
     Todo.category t = Some c) /\
  (forall p, TodoFilter.priority (TodoState.filter S) = Some p -> Todo.priority t = p) /\
  (TodoFilter.showCompleted (TodoState.filter S) = false -> Todo.completed t = false).
Proof.
  intros getTime S t. unfold filteredAndSortedTodos.
  rewrite In_sortBy, In_applyFilters, search_cond_spec, category_cond_spec,
    priority_cond_spec, completed_cond_spec.
  reflexivity.
Qed.

Lemma filter_composition_witness :
  In (sampleTodo "a" false "2025-01-01T00:00:00.000Z")
     (filteredAndSortedTodos isoKey threeState).
Proof.
  apply (proj2 (filter_composition isoKey threeState _)).
  split; [simpl; right; left; reflexivity|].
  split; [intros H; exfalso; apply H; reflexivity|].
  split; [intros c Hc; discriminate|].
  split; [intros p Hp; discriminate | intros H; discriminate].
Defined.

(* ------------------------------------------------------------------ *)
(** ** The derived view: the dueDate order *)

Section DueOrder.
Variable getTime : string -> option Z.

Lemma dueLe_trans : forall a b c, dueDateOk getTime a -> dueDateOk getTime b ->
  dueDateOk getTime c -> dueLe getTime a b = true -> dueLe getTime b c = true ->
  dueLe getTime a c = true.
Proof.
  intros a b c _ _ _. unfold dueLe.
  destruct (Todo.completed a), (Todo.completed b), (Todo.completed c);
    destruct (dueKey getTime a), (dueKey getTime b), (dueKey getTime c); simpl;
    intros H1 H2; try reflexivity; try discriminate;
    rewrite Z.leb_le in *; lia.
Qed.

Lemma dueLe_total : forall a b, dueDateOk getTime a -> dueDateOk getTime b ->
  dueLe getTime a b = true \/ dueLe getTime b a = true.
Proof.
  intros a b _ _. unfold dueLe.
  destruct (Todo.completed a), (Todo.completed b);
    destruct (dueKey getTime a) as [x|], (dueKey getTime b) as [y|]; simpl; auto;
    rewrite !Z.leb_le; lia.
Qed.

Lemma dueCompare_pos : forall y x, dueDateOk getTime y -> dueDateOk getTime x ->
  (0 < sortCompare (compareTodos getTime SortBy.dueDate) y x)%Z <->
  dueLe getTime y x = false.
Proof.
  intros y x Hy Hx. unfold sortCompare, compareTodos, dueLe, dueKey.
  destruct (Todo.completed y), (Todo.completed x); simpl;
    destruct (truthyOpt (Todo.dueDate y)) eqn:Ty, (truthyOpt (Todo.dueDate x)) eqn:Tx;
    simpl;
    try (destruct (getTime (dueDateText y)) as [ty|] eqn:Gy; [|exfalso; exact (Hy Ty Gy)]);
    try (destruct (getTime (dueDateText x)) as [tx|] eqn:Gx; [|exfalso; exact (Hx Tx Gx)]);
    simpl;
    first
      [ split; [intros; lia | discriminate]
      | split; [intros; reflexivity | intros; lia]
      | rewrite Z.leb_gt; split; intros; lia ].
Qed.

End DueOrder.

Lemma applyFilters_incl : forall f l t, In t (applyFilters f l) -> In t l.
Proof. intros f l t H; apply In_applyFilters in H; tauto. Qed.

(** C4: with [sortBy = dueDate], and every due date a date (as the data
    model defines [dueDate]), within each completion partition the todos
    with a due date come first, ascending by due date, and then the todos
    without one; and every group of equally ranked todos (same
    completion, same due date, or both without one) keeps its order from
    the todo sequence. *)
Theorem dueDate_sort_order : forall getTime S,
  TodoFilter.sortBy (TodoState.filter S) = SortBy.dueDate ->
  (forall t, In t (TodoState.todos S) -> dueDateOk getTime t) ->
  (forall i j a b, (i < j)%nat ->
     nth_error (filteredAndSortedTodos getTime S) i = Some a ->
     nth_error (filteredAndSortedTodos getTime S) j = Some b ->
     Todo.completed a = Todo.completed b ->
     truthyOpt (Todo.dueDate b) = true ->
     truthyOpt (Todo.dueDate a) = true /\
     exists ta tb, getTime (dueDateText a) = Some ta /\
                   getTime (dueDateText b) = Some tb /\ (ta <= tb)%Z) /\
  (forall c k,
     filter (fun t => Bool.eqb (Todo.completed t) c && optZEqb (dueKey getTime t) k)
       (filteredAndSortedTodos getTime S) =
     filter (fun t => Bool.eqb (Todo.completed t) c && optZEqb (dueKey getTime t) k)
       (applyFilters (TodoState.filter S) (TodoState.todos S))).
Proof.
  intros getTime S Hsort Hok.
  assert (Hokf : Forall (dueDateOk getTime)
                   (applyFilters (TodoState.filter S) (TodoState.todos S))).
  { apply Forall_forall; intros t Ht; apply Hok, (applyFilters_incl _ _ _ Ht). }
  assert (Hcmp_pos : forall y x, dueDateOk getTime y -> dueDateOk getTime x ->
            (0 < sortCompare (compareTodos getTime SortBy.dueDate) y x)%Z ->
            dueLe getTime y x = false).
  { intros y x Hy Hx; apply (dueCompare_pos getTime y x Hy Hx). }
  assert (Hcmp_le : forall y x, dueDateOk getTime y -> dueDateOk getTime x ->
            ~ (0 < sortCompare (compareTodos getTime SortBy.dueDate) y x)%Z ->
            dueLe getTime y x = true).
  { intros y x Hy Hx Hn. apply Bool.not_false_iff_true; intros Hf.
    apply Hn, (dueCompare_pos getTime y x Hy Hx), Hf. }
  unfold filteredAndSortedTodos; rewrite Hsort. split.
  - intros i j a b Hij Hi Hj Hc Hb.
    pose proof (sortBy_sorted _ (dueLe getTime) (dueDateOk getTime)
                  (dueLe_trans getTime)
                  (fun y x Hy Hx Hp =>
                     match dueLe_total getTime x y Hx Hy with
                     | or_introl H => H
                     | or_intror H =>
                         False_rect _ (Bool.diff_true_false
                           (eq_trans (eq_sym H) (Hcmp_pos y x Hy Hx Hp)))
                     end)
                  Hcmp_le _ Hokf) as Hs.
    pose proof (StronglySorted_nth _ _ i j a b Hs Hij Hi Hj) as Hab.
    assert (Hoka : dueDateOk getTime a).
    { rewrite Forall_forall in Hokf; apply Hokf.
      apply (In_sortBy (compareTodos getTime SortBy.dueDate)), (nth_error_In _ _ Hi). }
    assert (Hokb : dueDateOk getTime b).
    { rewrite Forall_forall in Hokf; apply Hokf.
      apply (In_sortBy (compareTodos getTime SortBy.dueDate)), (nth_error_In _ _ Hj). }
    unfold leP, dueLe, dueKey in Hab. rewrite Hc, Bool.eqb_reflx, Hb in Hab.
    destruct (getTime (dueDateText b)) as [tb|] eqn:Gb; [|exfalso; exact (Hokb Hb Gb)].
    destruct (truthyOpt (Todo.dueDate a)) eqn:Ta; [|discriminate].
    destruct (getTime (dueDateText a)) as [ta|] eqn:Ga; [|exfalso; exact (Hoka Ta Ga)].
    split; [reflexivity|]. exists ta, tb. split; [reflexivity|]. split; [reflexivity|].
    apply Z.leb_le, Hab.
  - intros c k. unfold sortBy.
    rewrite (sortBy_stable_acc _ (dueLe getTime) (dueDateOk getTime) (dueLe_trans getTime)
               (dueLe_total getTime) Hcmp_pos Hcmp_le); [reflexivity| |exact Hokf|constructor].
    intros w x _ _ Hw Hx.
    apply Bool.andb_true_iff in Hw as [Hw1 Hw2], Hx as [Hx1 Hx2].
    apply Bool.eqb_prop in Hw1, Hx1.
    unfold dueLe. rewrite Hw1, Hx1, Bool.eqb_reflx.
    destruct (dueKey getTime w) as [n|], (dueKey getTime x) as [m|], k as [q|];
      simpl in *; try discriminate; try reflexivity.
    apply Z.eqb_eq in Hw2, Hx2. apply Z.leb_le; lia.
Qed.

Lemma dueDate_sort_order_witness :
  map Todo.id (filteredAndSortedTodos isoKey dueState) = ["february"; "march"; "none"] /\
  truthyOpt (Todo.dueDate (dueTodo "february" (Some "2025-02-01"))) = true.
Proof.
  split; [reflexivity|].
  assert (Hok : forall t, In t (TodoState.todos dueState) -> dueDateOk isoKey t).
  { simpl; intros t [<- | [<- | [<- | []]]]; unfold dueDateOk; simpl; discriminate. }
  destruct (dueDate_sort_order isoKey dueState eq_refl Hok) as [H _].
  exact (proj1 (H 0 1 _ (dueTodo "march" (Some "2025-03-01")) ltac:(lia) eq_refl eq_refl
                  eq_refl eq_refl)).
Defined.

(* ------------------------------------------------------------------ *)
(** ** Persistence *)

(** C7: [loadFromLocalStorage] returns no value, and raises nothing,
    when the slot is absent, when the read itself raises, and when the
    slot's text does not parse. *)
Theorem load_degrades_to_none : forall json st,
  (slot st = None \/ getItemThrows st = true \/
   exists txt e, slot st = Some txt /\ parse json txt = Throw e) ->
  loadFromLocalStorage json st = Ok None.
Proof.
  intros json st H. unfold loadFromLocalStorage, getItem.
  destruct (getItemThrows st) eqn:Hg; [reflexivity|].
  destruct H as [H | [H | [txt [e [Hs Hp]]]]].
  - rewrite H; reflexivity.
  - discriminate.
  - rewrite Hs, Hp; reflexivity.
Qed.

Lemma load_degrades_to_none_witness :
  loadFromLocalStorage sampleJson corruptedStorage = Ok None.
Proof.
  apply load_degrades_to_none. right; right.
  exists "invalid json", "SyntaxError: Unexpected token"; split; reflexivity.
Defined.

(* ------------------------------------------------------------------ *)
(** ** The façade *)

Lemma mount_spec : forall json clock0 st,
  mount json clock0 st =
  (mkRender (loadedOrDefault json st) true,
   saveToLocalStorage json (loadedOrDefault json st) st,
   [loadedOrDefault json st]).
Proof.
  intros json clock0 st. unfold mount, loadEffect, loadedOrDefault.
  destruct (loadFromLocalStorage json st) as [[s|]|e]; reflexivity.
Qed.

Lemma runDispatches_saved : forall json acts r st,
  rIsInitialized r = true ->
  savedStates (runDispatches json r st acts) = statesAfter (rState r) acts /\
  rIsInitialized (finalRender (runDispatches json r st acts)) = true.
Proof.
  intros json acts; induction acts as [|[clock a] acts IH]; intros [s b] st Hb;
    simpl in Hb; subst b; [split; reflexivity|].
  simpl.
  destruct (IH (mkRender (todoReducer clock s a) true)
              (saveToLocalStorage json (todoReducer clock s a) st) eq_refl) as [H1 H2].
  destruct (runDispatches json (mkRender (todoReducer clock s a) true)
              (saveToLocalStorage json (todoReducer clock s a) st) acts)
    as [[r2 st2] saved2].
  unfold savedStates, finalRender in *; simpl in *. rewrite H1. split; [reflexivity | exact H2].
Qed.

(** C6 (claim as stated, refuted): the empty default is saved when the
    load yields no value.  Mounting on a slot with text that does not
    parse saves [initialState] and overwrites the slot with it. *)
Lemma startup_saves_empty_default :
  slot corruptedStorage = Some "invalid json" /\
  savedStates (mount sampleJson sampleClock corruptedStorage) = [initialState] /\
  slot (finalStorage (mount sampleJson sampleClock corruptedStorage)) =
    Some (stringify sampleJson initialState).
Proof. split; [reflexivity|]. split; reflexivity. Qed.

(** C6 (amended): no save runs before initialization is marked complete.
    The save effect of the first render (isInitialized still false)
    writes nothing; the saves of a lifetime are, in order, the state
    after the load effect (the loaded state when the load returned one,
    otherwise the empty default) and then the state after each dispatch;
    every save happens in a render where isInitialized is true. *)
Theorem startup_saves_after_init : forall json clock0 st acts,
  snd (saveEffect json (mkRender initialState false) st) = [] /\
  savedStates (TodoProvider json clock0 st acts) =
    loadedOrDefault json st :: statesAfter (loadedOrDefault json st) acts /\
  rIsInitialized (finalRender (TodoProvider json clock0 st acts)) = true.
Proof.
  intros json clock0 st acts. split; [reflexivity|].
  unfold TodoProvider. rewrite mount_spec.
  destruct (runDispatches_saved json acts (mkRender (loadedOrDefault json st) true)
              (saveToLocalStorage json (loadedOrDefault json st) st) eq_refl) as [H1 H2].
  destruct (runDispatches json (mkRender (loadedOrDefault json st) true)
              (saveToLocalStorage json (loadedOrDefault json st) st) acts)
    as [[r2 st2] saved2].
  unfold savedStates, finalRender in *; simpl in *. rewrite H1. split; [reflexivity | exact H2].
Qed.

(* ================================================================== *)
(** * Further properties of the code *)

(* ------------------------------------------------------------------ *)
(** ** The reducer *)

(** Add Todo followed by Delete Todo of the added todo's id returns the
    original state, when no todo of the state carries that id. *)
Theorem add_then_delete_todo : forall clock1 clock2 S t,
  (forall u, In u (TodoState.todos S) -> Todo.id u <> Todo.id t) ->
  todoReducer clock2 (todoReducer clock1 S (ADD_TODO t)) (DELETE_TODO (Todo.id t)) = S.
Proof.
  intros clock1 clock2 [todos cats f] t Hfresh; simpl in Hfresh |- *.
  rewrite filter_app; simpl. rewrite String.eqb_refl; simpl. rewrite app_nil_r.
  rewrite filter_all_true; [reflexivity|].
  intros u Hu. rewrite (eqb_id_false todos (Todo.id t) Hfresh u Hu). reflexivity.
Qed.

Lemma add_then_delete_todo_witness :
  todoReducer laterClock (todoReducer sampleClock sampleState
     (ADD_TODO (sampleTodo "2" false "2025-01-02T00:00:00.000Z"))) (DELETE_TODO "2")
  = sampleState.
Proof.
  apply (add_then_delete_todo sampleClock laterClock sampleState
           (sampleTodo "2" false "2025-01-02T00:00:00.000Z")).
  simpl; intros u [<- | []]; simpl; discriminate.
Defined.

(** Add Category followed by Delete Category of the added category's id
    returns the original state, when no category carries that id. *)
Theorem add_then_delete_category : forall clock1 clock2 S c,
  (forall d, In d (TodoState.categories S) -> Category.id d <> Category.id c) ->
  todoReducer clock2 (todoReducer clock1 S (ADD_CATEGORY c)) (DELETE_CATEGORY (Category.id c))
  = S.
Proof.
  intros clock1 clock2 [todos cats f] c Hfresh; simpl in Hfresh |- *.
  rewrite filter_app; simpl. rewrite String.eqb_refl; simpl. rewrite app_nil_r.
  rewrite filter_all_true; [reflexivity|].
  intros d Hd. apply Bool.negb_true_iff, String.eqb_neq, Hfresh, Hd.
Qed.

Lemma add_then_delete_category_witness :
  todoReducer laterClock (todoReducer sampleClock dupState
     (ADD_CATEGORY (Category.mk "d" "Play" "#0000ff"))) (DELETE_CATEGORY "d")
  = dupState.
Proof.
  apply (add_then_delete_category sampleClock laterClock dupState
           (Category.mk "d" "Play" "#0000ff")).
  simpl; intros d [<- | [<- | []]]; simpl; discriminate.
Defined.

Lemma erase_toggled_twice : forall t n1 n2,
  eraseStamp (toggled (toggled t n1) n2) = eraseStamp t.
Proof. intros [] n1 n2; unfold eraseStamp, toggled, withUpdatedAt; simpl.
  rewrite Bool.negb_involutive; reflexivity. Qed.

Lemma mapStamped_toggle_twice : forall x clock1 clock2 l k1 k2,
  map eraseStamp
    (mapStamped clock2 k2 (hitsId x) toggled (mapStamped clock1 k1 (hitsId x) toggled l))
  = map eraseStamp l.
Proof.
  intros x clock1 clock2 l; induction l as [|t l IH]; intros k1 k2; simpl; [reflexivity|].
  destruct (hitsId x t) eqn:Ht; simpl.
  - assert (Ht' : hitsId x (toggled t (clock1 k1)) = true) by exact Ht.
    rewrite Ht'; simpl. rewrite erase_toggled_twice, IH; reflexivity.
  - rewrite Ht; simpl. rewrite IH; reflexivity.
Qed.

(** Toggling the same id twice restores every todo up to its
    [updatedAt]: the completion flags, and all other fields, are those
    of the start, and categories and filter are untouched. *)
Theorem toggle_twice_restores : forall clock1 clock2 S x,
  let S2 := todoReducer clock2 (todoReducer clock1 S (TOGGLE_TODO x)) (TOGGLE_TODO x) in
  map eraseStamp (TodoState.todos S2) = map eraseStamp (TodoState.todos S) /\
  TodoState.categories S2 = TodoState.categories S /\
  TodoState.filter S2 = TodoState.filter S.
Proof.
  intros clock1 clock2 [todos cats f] x; simpl.
  split; [|split; reflexivity].
  exact (mapStamped_toggle_twice x clock1 clock2 todos 0 0).
Qed.

(** A sequence of Add Todo actions appends the todos in the order of
    dispatch, after the existing ones, and leaves categories and filter
    as they were. *)
Theorem adds_append_in_order : forall clock S ts,
  fold_left (fun s t => todoReducer clock s (ADD_TODO t)) ts S =
  TodoState.mk (TodoState.todos S ++ ts) (TodoState.categories S) (TodoState.filter S).
Proof.
  intros clock S ts; revert S; induction ts as [|t ts IH]; intros [todos cats f]; simpl.
  - rewrite app_nil_r; reflexivity.
  - rewrite IH; simpl. rewrite <- app_assoc; reflexivity.
Qed.

(* ------------------------------------------------------------------ *)
(** ** The derived view: the priority and createdAt orders *)

(** For a total preorder [le] on the todos satisfying [ok] whose strict
    part is exactly where the comparator is positive, the sort is ordered
    by [le] and keeps the order of every group of [le]-equal todos. *)
Lemma sort_sorted_stable : forall cmp le (ok : Todo.t -> Prop),
  (forall a b c, ok a -> ok b -> ok c -> le a b = true -> le b c = true -> le a c = true) ->
  (forall a b, ok a -> ok b -> le a b = true \/ le b a = true) ->
  (forall y x, ok y -> ok x -> (0 < sortCompare cmp y x)%Z <-> le y x = false) ->
  forall l, Forall ok l ->
  StronglySorted (leP le) (sortBy cmp l) /\
  (forall P, (forall w x, ok w -> ok x -> P w = true -> P x = true -> le w x = true) ->
     filter P (sortBy cmp l) = filter P l).
Proof.
  intros cmp le ok Htrans Htotal Hcmp l Hok.
  assert (Hpos : forall y x, ok y -> ok x -> (0 < sortCompare cmp y x)%Z -> le y x = false).
  { intros y x Hy Hx; apply (Hcmp y x Hy Hx). }
  assert (Hle : forall y x, ok y -> ok x -> ~ (0 < sortCompare cmp y x)%Z -> le y x = true).
  { intros y x Hy Hx Hn. apply Bool.not_false_iff_true; intros Hf.
    apply Hn, (Hcmp y x Hy Hx), Hf. }
  split.
  - apply (sortBy_sorted cmp le ok Htrans); [|exact Hle|exact Hok].
    intros y x Hy Hx Hp. destruct (Htotal x y Hx Hy) as [H|H]; [exact H|].
    rewrite (Hpos y x Hy Hx Hp) in H; discriminate.
  - intros P HP. unfold sortBy.
    rewrite (sortBy_stable_acc cmp le ok Htrans Htotal Hpos Hle P HP);
      [reflexivity | exact Hok | constructor].
Qed.

Lemma priorityLe_trans : forall a b c,
  priorityLe a b = true -> priorityLe b c = true -> priorityLe a c = true.
Proof.
  intros a b c. unfold priorityLe.
  destruct (Todo.completed a), (Todo.completed b), (Todo.completed c); simpl;
    intros H1 H2; try reflexivity; try discriminate; rewrite Z.leb_le in *; lia.
Qed.

Lemma priorityLe_total : forall a b, priorityLe a b = true \/ priorityLe b a = true.
Proof.
  intros a b. unfold priorityLe.
  destruct (Todo.completed a), (Todo.completed b); simpl; auto; rewrite !Z.leb_le; lia.
Qed.

Lemma priorityCompare_pos : forall getTime y x,
  (0 < sortCompare (compareTodos getTime SortBy.priority) y x)%Z <-> priorityLe y x = false.
Proof.
  intros getTime y x. unfold sortCompare, compareTodos, priorityLe.
  destruct (Todo.completed y), (Todo.completed x); simpl;
    first [ rewrite Z.leb_gt; lia | split; [intros; reflexivity | intros; lia]
          | split; [intros; lia | discriminate] ].
Qed.

(** With [sortBy = priority], within each completion partition the view
    lists high before medium before low, and the todos of one completion
    and one priority keep their order from the todo sequence. *)
Theorem view_priority_order : forall getTime S,
  TodoFilter.sortBy (TodoState.filter S) = SortBy.priority ->
  (forall i j a b, (i < j)%nat ->
     nth_error (filteredAndSortedTodos getTime S) i = Some a ->
     nth_error (filteredAndSortedTodos getTime S) j = Some b ->
     Todo.completed a = Todo.completed b ->
     (priorityOrder (Todo.priority a) <= priorityOrder (Todo.priority b))%Z) /\
  (forall c p,
     filter (fun t => Bool.eqb (Todo.completed t) c && Priority.eqb (Todo.priority t) p)
       (filteredAndSortedTodos getTime S) =
     filter (fun t => Bool.eqb (Todo.completed t) c && Priority.eqb (Todo.priority t) p)
       (applyFilters (TodoState.filter S) (TodoState.todos S))).
Proof.
  intros getTime S Hsort. unfold filteredAndSortedTodos; rewrite Hsort.
  destruct (sort_sorted_stable (compareTodos getTime SortBy.priority) priorityLe
              (fun _ => True) (fun a b c _ _ _ => priorityLe_trans a b c)
              (fun a b _ _ => priorityLe_total a b)
              (fun y x _ _ => priorityCompare_pos getTime y x)
              (applyFilters (TodoState.filter S) (TodoState.todos S)))
    as [Hs Hst]; [apply Forall_forall; intros; exact I|].
  split.
  - intros i j a b Hij Hi Hj Hc.
    pose proof (StronglySorted_nth _ _ i j a b Hs Hij Hi Hj) as Hab.
    unfold leP, priorityLe in Hab. rewrite Hc, Bool.eqb_reflx in Hab.
    apply Z.leb_le, Hab.
  - intros c p. apply Hst.
    intros w x _ _ Hw Hx.
    apply Bool.andb_true_iff in Hw as [Hw1 Hw2], Hx as [Hx1 Hx2].
    apply Bool.eqb_prop in Hw1, Hx1. apply priority_eqb_spec in Hw2, Hx2.
    unfold priorityLe. rewrite Hw1, Hx1, Hw2, Hx2, Bool.eqb_reflx. apply Z.leb_refl.
Qed.

Lemma createdLe_trans : forall getTime a b c,
  getTime (Todo.createdAt a) <> None -> getTime (Todo.createdAt b) <> None ->
  getTime (Todo.createdAt c) <> None ->
  createdLe getTime a b = true -> createdLe getTime b c = true -> createdLe getTime a c = true.
Proof.
  intros getTime a b c Ha Hb Hc. unfold createdLe.
  destruct (getTime (Todo.createdAt a)) as [x|]; [|congruence].
  destruct (getTime (Todo.createdAt b)) as [y|]; [|congruence].
  destruct (getTime (Todo.createdAt c)) as [z|]; [|congruence].
  destruct (Todo.completed a), (Todo.completed b), (Todo.completed c); simpl;
    intros H1 H2; try reflexivity; try discriminate; rewrite Z.leb_le in *; lia.
Qed.

Lemma createdLe_total : forall getTime a b,
  createdLe getTime a b = true \/ createdLe getTime b a = true.
Proof.
  intros getTime a b. unfold createdLe.
  destruct (getTime (Todo.createdAt a)) as [x|], (getTime (Todo.createdAt b)) as [y|];
    destruct (Todo.completed a), (Todo.completed b); simpl; auto; rewrite !Z.leb_le; lia.
Qed.

Lemma createdCompare_pos : forall getTime y x,
  getTime (Todo.createdAt y) <> None -> getTime (Todo.createdAt x) <> None ->
  (0 < sortCompare (compareTodos getTime SortBy.createdAt) y x)%Z <->
  createdLe getTime y x = false.
Proof.
  intros getTime y x Hy Hx. unfold sortCompare, compareTodos, createdLe, subNum.
  destruct (getTime (Todo.createdAt y)) as [ty|]; [|congruence].
  destruct (getTime (Todo.createdAt x)) as [tx|]; [|congruence].
  destruct (Todo.completed y), (Todo.completed x); simpl;
    first [ rewrite Z.leb_gt; lia | split; [intros; reflexivity | intros; lia]
          | split; [intros; lia | discriminate] ].
Qed.

(** With [sortBy = createdAt], and every creation time a date, within
    each completion partition the view lists the newest todo first, and
    todos of one completion created at the same instant keep their order
    from the todo sequence. *)
Theorem view_createdAt_order : forall getTime S,
  TodoFilter.sortBy (TodoState.filter S) = SortBy.createdAt ->
  (forall t, In t (TodoState.todos S) -> getTime (Todo.createdAt t) <> None) ->
  (forall i j a b, (i < j)%nat ->
     nth_error (filteredAndSortedTodos getTime S) i = Some a ->
     nth_error (filteredAndSortedTodos getTime S) j = Some b ->
     Todo.completed a = Todo.completed b ->
     exists ta tb, getTime (Todo.createdAt a) = Some ta /\
                   getTime (Todo.createdAt b) = Some tb /\ (tb <= ta)%Z) /\
  (forall c k,
     filter (fun t => Bool.eqb (Todo.completed t) c && optZEqb (getTime (Todo.createdAt t)) k)
       (filteredAndSortedTodos getTime S) =
     filter (fun t => Bool.eqb (Todo.completed t) c && optZEqb (getTime (Todo.createdAt t)) k)
       (applyFilters (TodoState.filter S) (TodoState.todos S))).
Proof.
  intros getTime S Hsort Hok.
  set (ok := fun t => getTime (Todo.createdAt t) <> None).
  assert (Hokf : Forall ok (applyFilters (TodoState.filter S) (TodoState.todos S))).
  { apply Forall_forall; intros t Ht; apply Hok, (applyFilters_incl _ _ _ Ht). }
  unfold filteredAndSortedTodos; rewrite Hsort.
  destruct (sort_sorted_stable (compareTodos getTime SortBy.createdAt) (createdLe getTime) ok
              (createdLe_trans getTime) (fun a b _ _ => createdLe_total getTime a b)
              (createdCompare_pos getTime) _ Hokf) as [Hs Hst].
  split.
  - intros i j a b Hij Hi Hj Hc.
    pose proof (StronglySorted_nth _ _ i j a b Hs Hij Hi Hj) as Hab.
    assert (Hin : forall t n, nth_error (sortBy (compareTodos getTime SortBy.createdAt)
                     (applyFilters (TodoState.filter S) (TodoState.todos S))) n = Some t -> ok t).
    { intros t n Hn. rewrite Forall_forall in Hokf; apply Hokf.
      apply (In_sortBy (compareTodos getTime SortBy.createdAt)), (nth_error_In _ _ Hn). }
    pose proof (Hin a i Hi) as Ha. pose proof (Hin b j Hj) as Hb. unfold ok in Ha, Hb.
    unfold leP, createdLe in Hab. rewrite Hc, Bool.eqb_reflx in Hab.
    destruct (getTime (Todo.createdAt a)) as [ta|]; [|congruence].
    destruct (getTime (Todo.createdAt b)) as [tb|]; [|congruence].
    exists ta, tb. split; [reflexivity|]. split; [reflexivity|]. apply Z.leb_le, Hab.
  - intros c k. apply Hst.
    intros w x _ _ Hw Hx.
    apply Bool.andb_true_iff in Hw as [Hw1 Hw2], Hx as [Hx1 Hx2].
    apply Bool.eqb_prop in Hw1, Hx1.
    unfold createdLe. rewrite Hw1, Hx1, Bool.eqb_reflx.
    destruct (getTime (Todo.createdAt w)) as [n|], (getTime (Todo.createdAt x)) as [m|],
      k as [q|]; simpl in *; try discriminate; try reflexivity.
    apply Z.eqb_eq in Hw2, Hx2. apply Z.leb_le; lia.
Qed.

Lemma truthy_toLowerCase : forall s, truthy (toLowerCase s) = truthy s.
Proof. intros [|c s]; reflexivity. Qed.

(** Two search texts that are equal up to the case of their letters
    give the same view. *)
Theorem view_search_case_insensitive : forall getTime todos cats f s1 s2,
  toLowerCase s1 = toLowerCase s2 ->
  filteredAndSortedTodos getTime (TodoState.mk todos cats (withSearch f s1)) =
  filteredAndSortedTodos getTime (TodoState.mk todos cats (withSearch f s2)).
Proof.
  intros getTime todos cats f s1 s2 Hl.
  assert (Ht : truthy s1 = truthy s2).
  { rewrite <- (truthy_toLowerCase s1), <- (truthy_toLowerCase s2), Hl; reflexivity. }
  unfold filteredAndSortedTodos, applyFilters; simpl. rewrite Ht, Hl. reflexivity.
Qed.

Lemma view_priority_order_witness :
  map Todo.id (filteredAndSortedTodos isoKey prioState) = ["h"; "m"; "l"] /\
  (priorityOrder Priority.high <= priorityOrder Priority.medium)%Z.
Proof.
  split; [reflexivity|].
  apply (proj1 (view_priority_order isoKey prioState eq_refl) 0 1
           (prioTodo "h" Priority.high) (prioTodo "m" Priority.medium));
    [lia | reflexivity | reflexivity | reflexivity].
Defined.

Lemma view_createdAt_order_witness :
  map Todo.id (filteredAndSortedTodos isoKey threeState) = ["a"; "d"; "c"] /\
  exists ta tb, isoKey "2025-01-04T00:00:00.000Z" = Some ta /\
                isoKey "2025-01-03T00:00:00.000Z" = Some tb /\ (tb <= ta)%Z.
Proof.
  split; [reflexivity|].
  assert (Hok : forall t, In t (TodoState.todos threeState) ->
                  isoKey (Todo.createdAt t) <> None).
  { simpl; intros t [<- | [<- | [<- | []]]]; simpl; discriminate. }
  exact (proj1 (view_createdAt_order isoKey threeState eq_refl Hok) 1 2
           (sampleTodo "d" true "2025-01-04T00:00:00.000Z")
           (sampleTodo "c" true "2025-01-03T00:00:00.000Z") ltac:(lia)
           eq_refl eq_refl eq_refl).
Defined.

Lemma view_search_case_insensitive_witness :
  filteredAndSortedTodos isoKey
    (TodoState.mk (TodoState.todos threeState) [] (withSearch (TodoState.filter threeState) "TEST"))
  = filteredAndSortedTodos isoKey
    (TodoState.mk (TodoState.todos threeState) [] (withSearch (TodoState.filter threeState) "tEsT")).
Proof.
  apply view_search_case_insensitive. reflexivity.
Defined.

(* ------------------------------------------------------------------ *)
(** ** [trim], [split] and [join] *)

Lemma list_ascii_app : forall a b,
  list_ascii_of_string (a ++ b)%string = list_ascii_of_string a ++ list_ascii_of_string b.
Proof. intros a b; induction a as [|c a IH]; simpl; [reflexivity | rewrite IH; reflexivity]. Qed.

Lemma dropWhiteSpace_suffix : forall l, exists p, l = p ++ dropWhiteSpace l.
Proof.
  intros l; induction l as [|c l [p IH]]; simpl; [exists []; reflexivity|].
  destruct (isWhiteSpace c); [exists (c :: p); rewrite IH at 1; reflexivity|].
  exists []; reflexivity.
Qed.

Lemma In_dropWhiteSpace : forall c l, In c (dropWhiteSpace l) -> In c l.
Proof.
  intros c l H. destruct (dropWhiteSpace_suffix l) as [p Hp].
  rewrite Hp; apply in_or_app; right; exact H.
Qed.

Lemma dropWhiteSpace_head : forall l c r,
  dropWhiteSpace l = c :: r -> isWhiteSpace c = false.
Proof.
  intros l; induction l as [|d l IH]; intros c r H; simpl in H; [discriminate|].
  destruct (isWhiteSpace d) eqn:Hd; [exact (IH c r H)|].
  injection H as <- _; exact Hd.
Qed.

Lemma dropWhiteSpace_fix : forall l,
  (forall c r, l = c :: r -> isWhiteSpace c = false) -> dropWhiteSpace l = l.
Proof.
  intros [|c r] H; simpl; [reflexivity|]. rewrite (H c r eq_refl); reflexivity.
Qed.

Lemma dropWhiteSpace_idem : forall l, dropWhiteSpace (dropWhiteSpace l) = dropWhiteSpace l.
Proof.
  intros l; apply dropWhiteSpace_fix; intros c r H; exact (dropWhiteSpace_head l c r H).
Qed.

(** [trim] is idempotent. *)
Lemma trim_idem : forall s, trim (trim s) = trim s.
Proof.
  intros s. unfold trim. rewrite list_ascii_of_string_of_list_ascii.
  set (m := dropWhiteSpace (list_ascii_of_string s)).
  set (r := dropWhiteSpace (rev m)).
  assert (Hr : dropWhiteSpace (rev r) = rev r).
  { apply dropWhiteSpace_fix. intros c r' Hc.
    destruct (dropWhiteSpace_suffix (rev m)) as [p Hp]. fold r in Hp.
    assert (Hm : m = rev r ++ rev p).
    { rewrite <- (rev_involutive m), Hp, rev_app_distr; reflexivity. }
    rewrite Hc in Hm. exact (dropWhiteSpace_head _ c (r' ++ rev p) Hm). }
  rewrite Hr, rev_involutive. unfold r at 1. rewrite dropWhiteSpace_idem. reflexivity.
Qed.

Lemma In_trim : forall c s, In c (list_ascii_of_string (trim s)) -> In c (list_ascii_of_string s).
Proof.
  intros c s H. unfold trim in H. rewrite list_ascii_of_string_of_list_ascii in H.
  apply in_rev, In_dropWhiteSpace, in_rev, In_dropWhiteSpace in H. exact H.
Qed.

Lemma dropWhiteSpace_all : forall l,
  Forall (fun c => isWhiteSpace c = true) l -> dropWhiteSpace l = [].
Proof.
  intros l H; induction H as [|c l Hc _ IH]; simpl; [reflexivity|]. rewrite Hc; exact IH.
Qed.

Lemma trim_space : forall u, trim (String " " u) = trim u.
Proof. intros u; reflexivity. Qed.

Lemma splitComma_nocomma : forall a, ~ In ","%char a -> splitComma a = [a].
Proof.
  intros a; induction a as [|c a IH]; intros H; simpl; [reflexivity|].
  destruct (Ascii.eqb_spec c ","%char) as [->|Hc]; [exfalso; apply H; left; reflexivity|].
  rewrite IH; [reflexivity|]. intros Hin; apply H; right; exact Hin.
Qed.

Lemma splitComma_app : forall a r,
  ~ In ","%char a -> splitComma (a ++ ","%char :: r) = a :: splitComma r.
Proof.
  intros a; induction a as [|c a IH]; intros r H; simpl; [reflexivity|].
  destruct (Ascii.eqb_spec c ","%char) as [->|Hc]; [exfalso; apply H; left; reflexivity|].
  rewrite IH; [reflexivity|]. intros Hin; apply H; right; exact Hin.
Qed.

Lemma splitComma_pieces : forall l w, In w (splitComma l) -> ~ In ","%char w.
Proof.
  intros l; induction l as [|c l IH]; intros w Hw; simpl in Hw.
  - destruct Hw as [<- | []]; intros [].
  - destruct (Ascii.eqb_spec c ","%char) as [->|Hc].
    + destruct Hw as [<- | Hw]; [intros [] | exact (IH w Hw)].
    + destruct (splitComma l) as [|w0 ws] eqn:Hs.
      * destruct Hw as [<- | []]; intros [H|[]]; apply Hc; exact H.
      * destruct Hw as [<- | Hw].
        -- intros [H|H]; [apply Hc; exact H|].
           exact (IH w0 (or_introl eq_refl) H).
        -- exact (IH w (or_intror Hw)).
Qed.

Lemma splitComma_join : forall ts t,
  ~ In ","%char (list_ascii_of_string t) ->
  Forall (fun u => ~ In ","%char (list_ascii_of_string u)) ts ->
  splitComma (list_ascii_of_string (join ", " (t :: ts))) =
  list_ascii_of_string t :: map (fun u => " "%char :: list_ascii_of_string u) ts.
Proof.
  intros ts; induction ts as [|u ts IH]; intros t Ht Hts.
  - apply splitComma_nocomma, Ht.
  - inversion Hts as [|? ? Hu Hts']; subst.
    change (join ", " (t :: u :: ts)) with (t ++ ", " ++ join ", " (u :: ts))%string.
    rewrite list_ascii_app.
    change (list_ascii_of_string (", " ++ join ", " (u :: ts))%string) with
      (","%char :: " "%char :: list_ascii_of_string (join ", " (u :: ts))).
    rewrite (splitComma_app _ _ Ht).
    change (splitComma (" "%char :: list_ascii_of_string (join ", " (u :: ts)))) with
      (match splitComma (list_ascii_of_string (join ", " (u :: ts))) with
       | [] => [[" "%char]]
       | w :: ws => (" "%char :: w) :: ws
       end).
    rewrite (IH u Hu Hts'). reflexivity.
Qed.

Lemma length_pos_iff : forall s, (0 <? String.length s)%nat = true <-> s <> "".
Proof.
  intros [|c s]; simpl; split; intros H; try discriminate; try reflexivity;
    try (exfalso; apply H; reflexivity); intros H'; discriminate.
Qed.

(** Reading back the tags the edit form shows gives the tags. *)
Lemma parseTags_join : forall ts, Forall tagOk ts -> parseTags (join ", " ts) = ts.
Proof.
  intros [|t ts] Hts; [reflexivity|].
  inversion Hts as [|? ? [Ht1 [Ht2 Ht3]] Hts']; subst.
  unfold parseTags, splitOnComma.
  rewrite splitComma_join;
    [| exact Ht2 | apply Forall_forall; intros u Hu;
                   rewrite Forall_forall in Hts'; apply (Hts' u Hu)].
  simpl map. rewrite string_of_list_ascii_of_string, Ht3.
  assert (Hm : map trim (map string_of_list_ascii
                 (map (fun u => " "%char :: list_ascii_of_string u) ts)) = ts).
  { clear Hts. induction Hts' as [|u ts [_ [_ Hu]] _ IH]; [reflexivity|].
    simpl. rewrite IH. f_equal.
    change (trim (String " " (string_of_list_ascii (list_ascii_of_string u))) = u).
    rewrite trim_space, string_of_list_ascii_of_string; exact Hu. }
  rewrite Hm. apply filter_all_true.
  intros u [<- | Hu]; apply length_pos_iff; [exact Ht1|].
  rewrite Forall_forall in Hts'; apply (Hts' u Hu).
Qed.

Lemma orUndefined_not_empty : forall v, orUndefined v <> Some "".
Proof. intros [|c v]; unfold orUndefined; simpl; discriminate. Qed.

Lemma orUndefined_override : forall o, o <> Some "" -> orUndefined (override o "") = o.
Proof.
  intros [[|c v]|] H; unfold orUndefined; simpl; [congruence | reflexivity | reflexivity].
Qed.

Lemma truthy_orUndefined : forall v d, orUndefined v = Some d -> d = v /\ d <> "".
Proof.
  intros v d; unfold orUndefined. destruct (truthy v) eqn:Hv; [|discriminate].
  intros H; injection H as <-; split; [reflexivity | apply truthy_true, Hv].
Qed.

Lemma parseTags_ok : forall s, Forall tagOk (parseTags s).
Proof.
  intros s. apply Forall_forall. intros tag Hin.
  unfold parseTags in Hin. apply filter_In in Hin as [Hin Hlen].
  apply in_map_iff in Hin as [w [<- Hw]].
  unfold splitOnComma in Hw. apply in_map_iff in Hw as [l [<- Hl]].
  split; [apply length_pos_iff, Hlen|]. split; [|apply trim_idem].
  intros Hc. apply In_trim in Hc. rewrite list_ascii_of_string_of_list_ascii in Hc.
  exact (splitComma_pieces _ _ Hl Hc).
Qed.

(* ------------------------------------------------------------------ *)
(** ** The todo form *)

(** A title made only of white space (or empty) is refused: the form
    alerts and dispatches nothing, when adding and when editing. *)
Theorem form_blank_title_refused : forall editingTodo f newId clk,
  Forall (fun c => isWhiteSpace c = true) (list_ascii_of_string (fTitle f)) ->
  todoFormSubmit editingTodo f newId clk = FormAlert /\
  formAction (todoFormSubmit editingTodo f newId clk) = None.
Proof.
  intros editingTodo f newId clk Hws.
  assert (Ht : trim (fTitle f) = "").
  { unfold trim. rewrite (dropWhiteSpace_all _ Hws). reflexivity. }
  unfold todoFormSubmit. rewrite Ht. split; reflexivity.
Qed.

Lemma form_blank_title_refused_witness :
  todoFormSubmit None (mkFields (String "009"%char "  ") "x" Priority.high "" "" "a") "id" sampleClock = FormAlert
  /\ formAction (todoFormSubmit None (mkFields (String "009"%char "  ") "x" Priority.high "" "" "a") "id"
                   sampleClock) = None.
Proof.
  apply form_blank_title_refused. simpl.
  repeat constructor.
Defined.

(** A todo created through the form is incomplete and carries the new
    id; its title is non-empty and trimmed, its description is absent or
    non-empty and trimmed, its due date and category are absent or
    non-empty, and its tags are non-empty, trimmed and free of commas. *)
Theorem form_add_shape : forall f newId clk t,
  todoFormSubmit None f newId clk = FormAdd t ->
  formShaped t /\ Todo.completed t = false /\ Todo.id t = newId.
Proof.
  intros f newId clk t. unfold todoFormSubmit.
  destruct (truthy (trim (fTitle f))) eqn:Htt; simpl; [|discriminate].
  intros H; injection H as <-. split; [|split; reflexivity].
  unfold formShaped; simpl.
  split; [apply truthy_true, Htt|]. split; [apply trim_idem|].
  split; [intros d Hd; apply truthy_orUndefined in Hd as [-> Hne];
          split; [exact Hne | apply trim_idem]|].
  split; [apply orUndefined_not_empty|]. split; [apply orUndefined_not_empty|].
  apply parseTags_ok.
Qed.

Lemma form_add_shape_witness :
  exists t, todoFormSubmit None (mkFields " Buy milk " "" Priority.high "" "Home" " shop,, food ,")
              "1" sampleClock = FormAdd t /\
            formShaped t /\ Todo.completed t = false /\ Todo.id t = "1".
Proof.
  eexists. split; [reflexivity|].
  apply (form_add_shape (mkFields " Buy milk " "" Priority.high "" "Home" " shop,, food ,")
           "1" sampleClock). reflexivity.
Defined.

Lemma formEdit_spread : forall t newId clk,
  formShaped t ->
  exists u, todoFormSubmit (Some t) (formFieldsFor (Some t)) newId clk = FormUpdate (Todo.id t) u /\
            TodoPatch.id u = None /\ spreadTodo t u = t.
Proof.
  intros [id title desc comp pr due cat tags cr up] newId clk H.
  unfold formShaped in H; simpl in H. destruct H as (Ht1 & Ht2 & Hd & Hdue & Hcat & Htags).
  unfold todoFormSubmit, formFieldsFor; simpl. rewrite Ht2.
  assert (Htt : truthy title = true) by (apply truthy_true; exact Ht1).
  rewrite Htt; simpl. eexists; split; [reflexivity|]. split; [reflexivity|].
  unfold spreadTodo; simpl. rewrite parseTags_join by exact Htags.
  rewrite (orUndefined_override due Hdue), (orUndefined_override cat Hcat).
  assert (Hdesc : orUndefined (trim (override desc "")) = desc).
  { destruct desc as [d|]; [|reflexivity].
    destruct (Hd d eq_refl) as [Hne Htr]. simpl. rewrite Htr.
    apply (orUndefined_override (Some d)). congruence. }
  rewrite Hdesc. reflexivity.
Qed.

(** Opening a todo in the edit form and submitting it unchanged
    dispatches an update of its id whose merge with the todo is the todo
    itself: in the store it keeps every field but [updatedAt], which is
    re-stamped.  This holds for every todo whose fields the form
    reproduces (trimmed non-empty title and description, non-empty due
    date and category, tags non-empty, trimmed and free of commas). *)
Theorem form_edit_roundtrip : forall t newId clk,
  formShaped t ->
  exists u,
    todoFormSubmit (Some t) (formFieldsFor (Some t)) newId clk = FormUpdate (Todo.id t) u /\
    forall clock S i, nth_error (TodoState.todos S) i = Some t ->
      nth_error (TodoState.todos (todoReducer clock S (UPDATE_TODO (Todo.id t) u))) i =
      Some (withUpdatedAt t
              (clock (countHits (hitsId (Todo.id t)) (firstn i (TodoState.todos S))))).
Proof.
  intros t newId clk H. destruct (formEdit_spread t newId clk H) as [u [Hsub [_ Hsp]]].
  exists u. split; [exact Hsub|].
  intros clock S i Hi. simpl.
  rewrite (mapStamped_nth _ _ clock _ 0 i t Hi), String.eqb_refl, Hsp. reflexivity.
Qed.

Lemma formTodo_shaped : formShaped formTodo.
Proof.
  unfold formShaped; simpl.
  split; [discriminate|]. split; [reflexivity|].
  split; [intros d Hd; injection Hd as <-; split; [discriminate | reflexivity]|].
  split; [discriminate|]. split; [discriminate|].
  repeat constructor; try discriminate; simpl; intuition discriminate.
Qed.

Lemma form_edit_roundtrip_witness :
  exists u,
    todoFormSubmit (Some formTodo) (formFieldsFor (Some formTodo)) "9" sampleClock =
      FormUpdate "1" u /\
    nth_error (TodoState.todos (todoReducer sampleClock
                 (TodoState.mk [formTodo] [] (TodoState.filter initialState))
                 (UPDATE_TODO "1" u))) 0 =
      Some (withUpdatedAt formTodo (sampleClock 0%nat)).
Proof.
  destruct (form_edit_roundtrip formTodo "9" sampleClock formTodo_shaped) as [u [H1 H2]].
  exists u. split; [exact H1|].
  exact (H2 sampleClock (TodoState.mk [formTodo] [] (TodoState.filter initialState)) 0%nat
           eq_refl).
Defined.

(** An edit submitted through the form never changes the [id] or the
    [createdAt] of any todo in the store, whatever the fields hold. *)
Theorem form_update_keeps_ids : forall e f newId clk x u clock S i t,
  todoFormSubmit (Some e) f newId clk = FormUpdate x u ->
  nth_error (TodoState.todos S) i = Some t ->
  exists t',
    nth_error (TodoState.todos (todoReducer clock S (UPDATE_TODO x u))) i = Some t' /\
    Todo.id t' = Todo.id t /\ Todo.createdAt t' = Todo.createdAt t.
Proof.
  intros e f newId clk x u clock S i t Hsub Hi.
  unfold todoFormSubmit in Hsub.
  destruct (negb (truthy (trim (fTitle f)))); [discriminate|].
  injection Hsub as <- <-. simpl.
  rewrite (mapStamped_nth _ _ clock _ 0 i t Hi).
  destruct (String.eqb (Todo.id t) (Todo.id e)); eexists; split; try reflexivity;
    split; reflexivity.
Qed.

Lemma form_update_keeps_ids_witness :
  exists t',
    nth_error (TodoState.todos (todoReducer sampleClock sampleState
      (UPDATE_TODO "1" (TodoPatch.mk None (Some "New") (Some None) None (Some Priority.low)
                          (Some None) (Some None) (Some []) None None)))) 0 = Some t' /\
    Todo.id t' = "1" /\ Todo.createdAt t' = "2025-01-01T00:00:00.000Z".
Proof.
  exact (form_update_keeps_ids (sampleTodo "1" false "2025-01-01T00:00:00.000Z")
           (mkFields "New" "" Priority.low "" "" "") "9" sampleClock _ _ sampleClock sampleState
           0 (sampleTodo "1" false "2025-01-01T00:00:00.000Z") eq_refl eq_refl).
Defined.

(* ------------------------------------------------------------------ *)
(** ** The category manager *)

Lemma NoDup_map_filter : forall {A B} (f : A -> B) (p : A -> bool) l,
  NoDup (map f l) -> NoDup (map f (filter p l)).
Proof.
  intros A B f p l; induction l as [|a l IH]; intros H; simpl; [constructor|].
  inversion H as [|? ? Hn Hl]; subst.
  destruct (p a); simpl; [|exact (IH Hl)].
  constructor; [|exact (IH Hl)].
  intros Hin; apply Hn. apply in_map_iff in Hin as [b [Hb Hin]].
  apply filter_In in Hin as [Hin _]. rewrite <- Hb; apply in_map, Hin.
Qed.

Lemma Forall_filter_sub : forall {A} (P : A -> Prop) (p : A -> bool) l,
  Forall P l -> Forall P (filter p l).
Proof.
  intros A P p l H. rewrite Forall_forall in H |- *.
  intros x Hx; apply filter_In in Hx as [Hx _]; apply H, Hx.
Qed.

Lemma categoryStep_wf : forall clock S e,
  categoriesWellFormed S -> categoriesWellFormed (categoryStep clock S e).
Proof.
  intros clock [todos cats f] [n col newId | x] [Hnd Hall]; unfold categoryStep.
  - unfold categorySubmit; simpl.
    destruct (truthy (trim n)) eqn:Htn; simpl; [|split; assumption].
    destruct (find _ cats) eqn:Hfind; [split; assumption|].
    unfold categoriesWellFormed, lowerNames in *; simpl in *.
    split.
    + rewrite map_app; simpl.
      apply (Permutation_NoDup (Permutation_cons_append _ _)). constructor; [|exact Hnd].
      intros Hin. apply in_map_iff in Hin as [c [Hc Hin]].
      pose proof (find_none _ _ Hfind c Hin) as Hf; simpl in Hf.
      rewrite Hc, String.eqb_refl in Hf; discriminate.
    + apply Forall_app; split; [exact Hall|].
      constructor; [|constructor]. simpl.
      split; [apply truthy_true, Htn | apply trim_idem].
  - unfold categoriesWellFormed, lowerNames in *; simpl in *. split.
    + apply NoDup_map_filter, Hnd.
    + apply Forall_filter_sub, Hall.
Qed.

(** Whatever the user submits and deletes through the category manager,
    starting from well-formed categories, the categories stay well
    formed: every name is non-empty and trimmed, and no two names are
    equal up to letter case. *)
Theorem category_names_stay_unique : forall clock es S,
  categoriesWellFormed S -> categoriesWellFormed (fold_left (categoryStep clock) es S).
Proof.
  intros clock es; induction es as [|e es IH]; intros S H; simpl; [exact H|].
  apply IH, categoryStep_wf, H.
Qed.

Lemma category_names_stay_unique_witness :
  lowerNames (fold_left (categoryStep sampleClock)
    [SubmitCategory "Work" "#ff0000" "c1"; SubmitCategory " WORK " "#00ff00" "c2";
     SubmitCategory "   " "#00ff00" "c3"; SubmitCategory "Home" "#0000ff" "c4";
     ConfirmDelete "c1"; SubmitCategory "work " "#00ff00" "c5"] initialState)
  = ["home"; "work"] /\
  categoriesWellFormed (fold_left (categoryStep sampleClock)
    [SubmitCategory "Work" "#ff0000" "c1"; SubmitCategory " WORK " "#00ff00" "c2";
     SubmitCategory "   " "#00ff00" "c3"; SubmitCategory "Home" "#0000ff" "c4";
     ConfirmDelete "c1"; SubmitCategory "work " "#00ff00" "c5"] initialState).
Proof.
  split; [reflexivity|].
  apply category_names_stay_unique. split; constructor.
Defined.

(* ------------------------------------------------------------------ *)
(** ** The filter panel *)

(** Through the filter panel's handlers the category filter never
    becomes the empty string: started absent or non-empty, it stays
    absent or non-empty ([handleCategoryChange] maps [''] to
    [undefined]). *)
Theorem panel_category_never_empty : forall clock es S,
  TodoFilter.category (TodoState.filter S) <> Some "" ->
  TodoFilter.category (TodoState.filter (fold_left (filterStep clock) es S)) <> Some "".
Proof.
  intros clock es; induction es as [|e es IH]; intros S H; simpl; [exact H|].
  apply IH. destruct S as [todos cats f].
  destruct e; simpl; try exact H; try discriminate. apply orUndefined_not_empty.
Qed.

Lemma panel_category_never_empty_witness :
  TodoFilter.category (TodoState.filter (fold_left (filterStep sampleClock)
    [CategoryChange "Home"; SearchChange "milk"; CategoryChange ""] sampleState)) = None /\
  TodoFilter.category (TodoState.filter (fold_left (filterStep sampleClock)
    [CategoryChange "Home"; SearchChange "milk"; CategoryChange ""] sampleState)) <> Some "".
Proof.
  split; [reflexivity|].
  apply panel_category_never_empty. simpl; discriminate.
Defined.

(** [clearFilters] restores the reducer's initial filter, and the view
    then lists every todo of the state exactly once, whatever the filter
    was before. *)
Theorem clear_filters_shows_all : forall clock getTime S,
  TodoState.filter (filterStep clock S ClearFilters) = TodoState.filter initialState /\
  TodoState.todos (filterStep clock S ClearFilters) = TodoState.todos S /\
  Permutation (TodoState.todos S)
    (filteredAndSortedTodos getTime (filterStep clock S ClearFilters)).
Proof.
  intros clock getTime [todos cats f]. split; [reflexivity|]. split; [reflexivity|].
  exact (sortBy_perm (compareTodos getTime SortBy.createdAt) todos).
Qed.

(* ------------------------------------------------------------------ *)
(** ** The provider and the storage *)

Lemma save_ok : forall json s g v,
  saveToLocalStorage json s (mkStorage v g false) = mkStorage (Some (stringify json s)) g false.
Proof. reflexivity. Qed.

Lemma save_fail : forall json s st, setItemThrows st = true -> saveToLocalStorage json s st = st.
Proof. intros json s st H. unfold saveToLocalStorage, setItem. rewrite H. reflexivity. Qed.

Lemma runDispatches_storage_ok : forall json acts r g,
  rIsInitialized r = true ->
  finalStorage (runDispatches json r (mkStorage (Some (stringify json (rState r))) g false) acts)
  = mkStorage (Some (stringify json (rState (finalRender
      (runDispatches json r (mkStorage (Some (stringify json (rState r))) g false) acts))))) g false.
Proof.
  intros json acts; induction acts as [|[clock a] acts IH]; intros [s b] g Hb;
    simpl in Hb; subst b; [reflexivity|].
  simpl. rewrite save_ok.
  pose proof (IH (mkRender (todoReducer clock s a) true) g eq_refl) as H. simpl in H.
  destruct (runDispatches json (mkRender (todoReducer clock s a) true)
              (mkStorage (Some (stringify json (todoReducer clock s a))) g false) acts)
    as [[r2 st2] saved2].
  unfold finalStorage, finalRender in *; simpl in *. exact H.
Qed.

Lemma runDispatches_storage_fail : forall json acts r st,
  rIsInitialized r = true -> setItemThrows st = true ->
  finalStorage (runDispatches json r st acts) = st.
Proof.
  intros json acts; induction acts as [|[clock a] acts IH]; intros [s b] st Hb Hst;
    simpl in Hb; subst b; [reflexivity|].
  simpl. rewrite (save_fail json _ st Hst).
  pose proof (IH (mkRender (todoReducer clock s a) true) st eq_refl Hst) as H.
  destruct (runDispatches json (mkRender (todoReducer clock s a) true) st acts)
    as [[r2 st2] saved2].
  unfold finalStorage in *; simpl in *. exact H.
Qed.

Lemma provider_storage_ok : forall json clock0 st acts,
  setItemThrows st = false ->
  finalStorage (TodoProvider json clock0 st acts) =
  mkStorage (Some (stringify json (rState (finalRender (TodoProvider json clock0 st acts)))))
    (getItemThrows st) false.
Proof.
  intros json clock0 [v g w] acts Hw; simpl in Hw; subst w.
  unfold TodoProvider. rewrite mount_spec, save_ok.
  pose proof (runDispatches_storage_ok json acts
                (mkRender (loadedOrDefault json (mkStorage v g false)) true) g eq_refl) as H.
  simpl in H.
  destruct (runDispatches json (mkRender (loadedOrDefault json (mkStorage v g false)) true)
              (mkStorage (Some (stringify json (loadedOrDefault json (mkStorage v g false))))
                 g false) acts) as [[r2 st2] saved2].
  unfold finalStorage, finalRender in *; simpl in *. exact H.
Qed.

(** Over a lifetime of the provider (mount, then any dispatches), the
    storage slot ends up holding the serialization of the final state
    when writes succeed; when every write raises, the storage is left
    exactly as it was. *)
Theorem storage_tracks_state : forall json clock0 st acts,
  (setItemThrows st = false ->
     slot (finalStorage (TodoProvider json clock0 st acts)) =
     Some (stringify json (rState (finalRender (TodoProvider json clock0 st acts))))) /\
  (setItemThrows st = true -> finalStorage (TodoProvider json clock0 st acts) = st).
Proof.
  intros json clock0 st acts. split.
  - intros Hw. rewrite (provider_storage_ok json clock0 st acts Hw). reflexivity.
  - intros Hw. unfold TodoProvider. rewrite mount_spec, (save_fail json _ st Hw).
    pose proof (runDispatches_storage_fail json acts
                  (mkRender (loadedOrDefault json st) true) st eq_refl Hw) as H.
    destruct (runDispatches json (mkRender (loadedOrDefault json st) true) st acts)
      as [[r2 st2] saved2].
    unfold finalStorage in *; simpl in *. exact H.
Qed.

Lemma storage_tracks_state_witness :
  slot (finalStorage (TodoProvider sampleJson sampleClock emptyStorage
                        [(sampleClock, ADD_TODO (sampleTodo "1" false "2025-01-01"))])) =
  Some (stringify sampleJson (rState (finalRender (TodoProvider sampleJson sampleClock
          emptyStorage [(sampleClock, ADD_TODO (sampleTodo "1" false "2025-01-01"))])))) /\
  finalStorage (TodoProvider sampleJson sampleClock (mkStorage (Some "{}") false true)
                  [(sampleClock, ADD_TODO (sampleTodo "1" false "2025-01-01"))]) =
  mkStorage (Some "{}") false true.
Proof.
  split.
  - apply (proj1 (storage_tracks_state sampleJson sampleClock emptyStorage _)). reflexivity.
  - apply (proj2 (storage_tracks_state sampleJson sampleClock
                    (mkStorage (Some "{}") false true) _)). reflexivity.
Defined.


